(** * WhatsApp / e-mail messenger bridge: rate limiter, session registry,
      connection supervisor and HTTP routes.

    Shallow embedding of
      - backend/src/utils/rateLimiter.js       (class RateLimiter),
      - backend/src/services/whatsappService.js (initializeWhatsApp, the
        connection.update and creds.update handlers, sendWhatsAppMessage,
        getQRCode, getSessionStatus),
      - backend/src/middleware/validation.js    (isValidEmail,
        validateWhatsAppMessage, validateEmail),
      - backend/src/routes/whatsapp.js          (the /qr, /send and
        /disconnect routes),
      - backend/src/services/emailService.js    (createTransporter,
        sendEmail),
      - backend/src/routes/email.js             (the /send and /test
        routes).

    Time is the millisecond clock of [Date.now()], an integer; every function
    that reads the clock takes the reading as its argument [now] (one
    reading per call).  One call of a route, of a listener or of a timer
    callback is one step: what other tasks do while it awaits is not
    modelled.  Logging does nothing, and the calls into the transport
    library, the file system and the network either succeed or fail as the
    [Env] of the call says. *)

From stdpp Require Import gmap strings list.
From Stdlib Require Import ZArith Lia Ascii.

Local Open Scope Z_scope.

(** ** JavaScript numbers that can be infinite

    [Math.min()] of no argument is [Infinity]; every other number of the
    modelled code is an integer. *)

Inductive jsnum :=
  | Num (z : Z)
  | Infinity.

(** [Math.min(...l)]. *)
Definition Math_min (l : list Z) : jsnum :=
  match l with
  | [] => Infinity
  | x :: r => Num (foldr Z.min x r)
  end.

(** [a - (b - n)] for integers [a], [b]: infinite when [n] is. *)
Definition minus_minus (a b : Z) (n : jsnum) : jsnum :=
  match n with
  | Num o => Num (a - (b - o))
  | Infinity => Infinity
  end.

(** [Math.ceil(n / 1000)]. *)
Definition ceil_seconds (n : jsnum) : jsnum :=
  match n with
  | Num w => Num (- ((- w) / 1000))
  | Infinity => Infinity
  end.

(** ** rateLimiter.js *)

Module RateLimiter.

(** [this.maxRequests], [this.timeWindowMs], [this.requests] (a [Map] from
    identifier to the array of recorded timestamps). *)
Record t := mk {
  maxRequests : Z;
  timeWindowMs : Z;
  requests : gmap string (list Z)
}.

(** [new RateLimiter(maxRequests, timeWindowMs)]. *)
Definition create (maxRequests timeWindowMs : Z) : t :=
  mk maxRequests timeWindowMs ∅.

(** The error thrown by [checkLimit]; [waitTime] is the local of that
    name, of which the message prints [Math.ceil(waitTime / 1000)]. *)
Record Error := RateLimitExceeded { waitTime : jsnum }.

Definition retryAfterSeconds (e : Error) : jsnum := ceil_seconds (waitTime e).

(** [this.requests.get(identifier) || []]. *)
Definition userRequests (identifier : string) (rl : t) : list Z :=
  default [] (requests rl !! identifier).

(** [userRequests.filter(timestamp => now - timestamp < this.timeWindowMs)]. *)
Definition validRequests (now : Z) (identifier : string) (rl : t) : list Z :=
  filter (λ timestamp, now - timestamp < timeWindowMs rl) (userRequests identifier rl).

(** [checkLimit(identifier)] at clock reading [now]: the thrown error or
    [true], and the limiter afterwards. *)
Definition checkLimit (now : Z) (identifier : string) (rl : t) : (Error + unit) * t :=
  let valid := validRequests now identifier rl in
  if decide (maxRequests rl <= Z.of_nat (length valid)) then
    let oldestRequest := Math_min valid in
    (inl (RateLimitExceeded (minus_minus (timeWindowMs rl) now oldestRequest)), rl)
  else
    (inr tt,
     mk (maxRequests rl) (timeWindowMs rl)
        (<[identifier := valid ++ [now]]> (requests rl))).

(** Successive calls for one identifier, at the given clock readings. *)
Fixpoint checkAll (times : list Z) (identifier : string) (rl : t)
  : list (Error + unit) * t :=
  match times with
  | [] => ([], rl)
  | now :: later =>
      let '(r, rl1) := checkLimit now identifier rl in
      let '(rs, rl2) := checkAll later identifier rl1 in
      (r :: rs, rl2)
  end.

(** [const whatsappLimiter = new RateLimiter(30, 60000)] and
    [const emailLimiter = new RateLimiter(50, 3600000)]. *)
Definition whatsappLimiter : t := create 30 60000.
Definition emailLimiter : t := create 50 3600000.

End RateLimiter.

(** ** whatsappService.js: the session record *)

(** Handles of the JavaScript runtime and of the transport library. *)
Abbreviation TimerId := nat (only parsing).
Abbreviation SocketId := nat (only parsing).
Abbreviation Ref := nat (only parsing).

(** [sessionData].  [socket] is the handle returned by [makeWASocket] or
    [null]; [qrGeneratedAt] is the epoch-millisecond value of the [Date];
    [reconnectTimer] the handle returned by [setTimeout] or [null].  The
    fields [state] and [saveCreds] are values of the transport library and
    are not read by the modelled code. *)
Record SessionData := mkSession {
  socket : option SocketId;
  isConnected : bool;
  qrCode : option string;
  qrGeneratedAt : option Z;
  qrScanned : bool;
  phoneNumber : option string;
  status : string;
  reconnectTimer : option TimerId
}.

Definition set_socket (v : option SocketId) (s : SessionData) : SessionData :=
  mkSession v (isConnected s) (qrCode s) (qrGeneratedAt s) (qrScanned s)
            (phoneNumber s) (status s) (reconnectTimer s).
Definition set_isConnected (v : bool) (s : SessionData) : SessionData :=
  mkSession (socket s) v (qrCode s) (qrGeneratedAt s) (qrScanned s)
            (phoneNumber s) (status s) (reconnectTimer s).
Definition set_qrCode (v : option string) (s : SessionData) : SessionData :=
  mkSession (socket s) (isConnected s) v (qrGeneratedAt s) (qrScanned s)
            (phoneNumber s) (status s) (reconnectTimer s).
Definition set_qrGeneratedAt (v : option Z) (s : SessionData) : SessionData :=
  mkSession (socket s) (isConnected s) (qrCode s) v (qrScanned s)
            (phoneNumber s) (status s) (reconnectTimer s).
Definition set_qrScanned (v : bool) (s : SessionData) : SessionData :=
  mkSession (socket s) (isConnected s) (qrCode s) (qrGeneratedAt s) v
            (phoneNumber s) (status s) (reconnectTimer s).
Definition set_phoneNumber (v : option string) (s : SessionData) : SessionData :=
  mkSession (socket s) (isConnected s) (qrCode s) (qrGeneratedAt s) (qrScanned s)
            v (status s) (reconnectTimer s).
Definition set_status (v : string) (s : SessionData) : SessionData :=
  mkSession (socket s) (isConnected s) (qrCode s) (qrGeneratedAt s) (qrScanned s)
            (phoneNumber s) v (reconnectTimer s).
Definition set_reconnectTimer (v : option TimerId) (s : SessionData) : SessionData :=
  mkSession (socket s) (isConnected s) (qrCode s) (qrGeneratedAt s) (qrScanned s)
            (phoneNumber s) (status s) v.

(** The record built by [initializeWhatsApp] before the socket exists
    (lines 140-151). *)
Definition newSessionData : SessionData :=
  mkSession None false None None false None "connecting" None.

(** Truthiness of a string-or-null value: [null] and the empty string are
    falsy. *)
Definition truthy (v : option string) : bool :=
  match v with
  | Some s => negb (String.eqb s "")
  | None => false
  end.

(** [qrAge > 180000] with [qrAge = now - generatedAt] (3 minutes). *)
Definition isExpired (now generatedAt : Z) : bool := 180000 <? now - generatedAt.

(** The two constants of the transport library's [DisconnectReason] that the
    service reads.  The library is not part of the repository, so they are
    taken as parameters. *)
Record DisconnectReason := {
  loggedOut : Z;
  restartRequired : Z
}.

(** [lastDisconnect?.error?.output?.statusCode === v]; the status code is
    [undefined] when any link of the chain is missing. *)
Definition code_is (statusCode : option Z) (v : Z) : bool :=
  match statusCode with
  | Some c => c =? v
  | None => false
  end.

(** [statusCode === 515 || statusCode === 428 ||
     statusCode === DisconnectReason.restartRequired] (line 335). *)
Definition recoverable (DR : DisconnectReason) (statusCode : option Z) : bool :=
  code_is statusCode 515 || code_is statusCode 428
  || code_is statusCode (restartRequired DR).

(** What a handler does outside of its own record. *)
Inductive Effect :=
  | ClearTimeout (t : TimerId)           (* clearTimeout(sessionData.reconnectTimer) *)
  | SetTimeout (t : TimerId) (delay : Z) (* setTimeout(reconnect callback, delay), returning t *)
  | DeleteSession                        (* activeSessions.delete(sessionId) *)
  | RemoveAuthDir                        (* fs.rmSync(sessionPath) when it exists *)
  | SaveCreds.                           (* await saveCreds() *)

(** [connection], [qr] and the status code of [lastDisconnect] of a
    [connection.update] event. *)
Inductive Connection := conn_open | conn_close | conn_connecting.

Record ConnectionUpdate := {
  connection : option Connection;
  qr : option string;
  statusCode : option Z
}.

(** A connection-closed event carrying [code] and no pairing string. *)
Definition closed_with (code : option Z) : ConnectionUpdate :=
  {| connection := Some conn_close; qr := None; statusCode := code |}.

(** [s.split(':')[0]]. *)
Fixpoint before_colon (s : string) : string :=
  match s with
  | EmptyString => EmptyString
  | String c r => if Ascii.eqb c ":"%char then EmptyString else String c (before_colon r)
  end.

(** [socket.user?.id?.split(':')[0] || null]. *)
Definition phone_of (user_id : option string) : option string :=
  match user_id with
  | Some i => let p := before_colon i in if String.eqb p "" then None else Some p
  | None => None
  end.

(** ** The handlers, as transitions of the record with their effects *)

(** [if (sessionData.reconnectTimer) { clearTimeout(...); ... = null }]
    (lines 259-262 and 315-318). *)
Definition clear_reconnectTimer (s : SessionData) : SessionData * list Effect :=
  match reconnectTimer s with
  | Some t => (set_reconnectTimer None s, [ClearTimeout t])
  | None => (s, [])
  end.

(** [if (!sessionData.reconnectTimer) { sessionData.reconnectTimer =
    setTimeout(..., delay) }] (lines 356-366, 382-391 and 402-413); [fresh]
    is the handle [setTimeout] returns. *)
Definition schedule_reconnect (fresh : TimerId) (delay : Z) (s : SessionData)
  : SessionData * list Effect :=
  match reconnectTimer s with
  | None => (set_reconnectTimer (Some fresh) s, [SetTimeout fresh delay])
  | Some _ => (s, [])
  end.

(** Lines 235-254: a pairing string arrived. *)
Definition on_qr (now : Z) (upd : ConnectionUpdate) (s : SessionData) : SessionData :=
  if truthy (qr upd) then
    set_status "qr_pending" (set_qrGeneratedAt (Some now) (set_qrCode (qr upd) s))
  else s.

(** Lines 257-271: [connection === 'open']. *)
Definition on_open (user_id : option string) (s : SessionData)
  : SessionData * list Effect :=
  let '(s1, eff) := clear_reconnectTimer s in
  (set_phoneNumber (phone_of user_id)
     (set_qrCode None (set_status "connected" (set_isConnected true s1))),
   eff).

(** Lines 335-414: a recoverable status code. *)
Definition on_recoverable (now : Z) (fresh : TimerId) (s : SessionData)
  : SessionData * list Effect :=
  if qrScanned s then
    schedule_reconnect fresh 2000
      (set_qrScanned false (set_qrCode None (set_status "reconnecting" s)))
  else if truthy (qrCode s) then
    let s1 := set_status "qr_pending" s in
    match qrGeneratedAt s1 with
    | Some generatedAt =>
        if isExpired now generatedAt then
          schedule_reconnect fresh 2000 (set_status "reconnecting" s1)
        else (s1, [])
    | None => (s1, [])
    end
  else
    schedule_reconnect fresh 3000 (set_status "reconnecting" s).

(** Lines 274-423: [connection === 'close']. *)
Definition on_close (DR : DisconnectReason) (now : Z) (fresh : TimerId)
    (code : option Z) (s : SessionData) : SessionData * list Effect :=
  let s0 := set_isConnected false s in
  if code_is code (loggedOut DR) then
    let '(s1, eff) := clear_reconnectTimer (set_status "disconnected" s0) in
    (s1, eff ++ [DeleteSession; RemoveAuthDir])
  else if recoverable DR code then
    on_recoverable now fresh s0
  else
    (set_status "failed" s0, []).

(** The [connection.update] listener (lines 221-431). *)
Definition connection_update (DR : DisconnectReason) (now : Z) (fresh : TimerId)
    (user_id : option string) (upd : ConnectionUpdate) (s : SessionData)
  : SessionData * list Effect :=
  let s1 := on_qr now upd s in
  match connection upd with
  | Some conn_open => on_open user_id s1
  | Some conn_close => on_close DR now fresh (statusCode upd) s1
  | _ => (s1, [])
  end.

(** The [creds.update] listener (lines 434-445). *)
Definition creds_update (s : SessionData) : SessionData * list Effect :=
  (if truthy (qrCode s) then set_status "authenticating" (set_qrScanned true s) else s,
   [SaveCreds]).

(** The events a socket delivers to the listeners registered on it;
    [user_id] is [socket.user?.id] at the time of the event. *)
Inductive SocketEvent :=
  | EvConnectionUpdate (upd : ConnectionUpdate) (user_id : option string)
  | EvCredsUpdate.

Definition handle (DR : DisconnectReason) (now : Z) (fresh : TimerId)
    (ev : SocketEvent) (s : SessionData) : SessionData * list Effect :=
  match ev with
  | EvConnectionUpdate upd user_id => connection_update DR now fresh user_id upd s
  | EvCredsUpdate => creds_update s
  end.

(** ** The process: registry, objects, disk, timers and sockets *)

(** A socket created by [makeWASocket]: the [sessionId] and [sessionData]
    its two listeners close over, and whether [socket.end()] or
    [socket.logout()] was called on it. *)
Inductive SocketState := sock_live | sock_ended | sock_logged_out.

Record SocketRec := mkSocket {
  sock_session : string;
  sock_data : Ref;
  sock_state : SocketState
}.

(** A pending [setTimeout] of the reconnect callback: the callback closes
    over [sessionId] and [sessionData]. *)
Record Timer := mkTimer {
  timer_id : TimerId;
  timer_delay : Z;
  timer_session : string;
  timer_data : Ref
}.

(** [activeSessions] maps a session id to a [sessionData] object; objects
    live in [heap] so that a listener or a timer callback keeps mutating the
    object it closed over after the registry has dropped or replaced it.
    [authSessions] is the directory [auth_sessions/] on disk: a session id
    is mapped to [true] when its directory holds [creds.json], to [false]
    when the directory exists without it. *)
Record World := mkWorld {
  activeSessions : gmap string Ref;
  heap : gmap Ref SessionData;
  authSessions : gmap string bool;
  timers : list Timer;
  sockets : gmap SocketId SocketRec;
  whatsappLimiter : RateLimiter.t;
  nextRef : Ref;
  nextTimer : TimerId;
  nextSocket : SocketId
}.

Definition set_activeSessions (v : gmap string Ref) (w : World) : World :=
  mkWorld v (heap w) (authSessions w) (timers w) (sockets w) (whatsappLimiter w)
          (nextRef w) (nextTimer w) (nextSocket w).
Definition set_heap (v : gmap Ref SessionData) (w : World) : World :=
  mkWorld (activeSessions w) v (authSessions w) (timers w) (sockets w) (whatsappLimiter w)
          (nextRef w) (nextTimer w) (nextSocket w).
Definition set_authSessions (v : gmap string bool) (w : World) : World :=
  mkWorld (activeSessions w) (heap w) v (timers w) (sockets w) (whatsappLimiter w)
          (nextRef w) (nextTimer w) (nextSocket w).
Definition set_timers (v : list Timer) (w : World) : World :=
  mkWorld (activeSessions w) (heap w) (authSessions w) v (sockets w) (whatsappLimiter w)
          (nextRef w) (nextTimer w) (nextSocket w).
Definition set_sockets (v : gmap SocketId SocketRec) (w : World) : World :=
  mkWorld (activeSessions w) (heap w) (authSessions w) (timers w) v (whatsappLimiter w)
          (nextRef w) (nextTimer w) (nextSocket w).
Definition set_whatsappLimiter (v : RateLimiter.t) (w : World) : World :=
  mkWorld (activeSessions w) (heap w) (authSessions w) (timers w) (sockets w) v
          (nextRef w) (nextTimer w) (nextSocket w).
Definition set_nextRef (v : Ref) (w : World) : World :=
  mkWorld (activeSessions w) (heap w) (authSessions w) (timers w) (sockets w)
          (whatsappLimiter w) v (nextTimer w) (nextSocket w).
Definition set_nextTimer (v : TimerId) (w : World) : World :=
  mkWorld (activeSessions w) (heap w) (authSessions w) (timers w) (sockets w)
          (whatsappLimiter w) (nextRef w) v (nextSocket w).
Definition set_nextSocket (v : SocketId) (w : World) : World :=
  mkWorld (activeSessions w) (heap w) (authSessions w) (timers w) (sockets w)
          (whatsappLimiter w) (nextRef w) (nextTimer w) v.

(** The process at start-up: [const activeSessions = new Map()], the
    limiter of rateLimiter.js, nothing on disk. *)
Definition startup : World :=
  mkWorld ∅ ∅ ∅ [] ∅ RateLimiter.whatsappLimiter 0%nat 0%nat 0%nat.

(** [activeSessions.get(sessionId)], with the object it refers to. *)
Definition get_session (sessionId : string) (w : World) : option (Ref * SessionData) :=
  r ← activeSessions w !! sessionId;
  s ← heap w !! r;
  Some (r, s).

(** [clearTimeout(t)]. *)
Definition cancel (t : TimerId) (l : list Timer) : list Timer :=
  filter (λ tm, timer_id tm ≠ t) l.

(** The effects of a handler that closes over [sessionId] and the object
    [data]. *)
Definition apply_effect (sessionId : string) (data : Ref) (e : Effect) (w : World) : World :=
  match e with
  | ClearTimeout t => set_timers (cancel t (timers w)) w
  | SetTimeout t delay =>
      set_nextTimer (S t) (set_timers (timers w ++ [mkTimer t delay sessionId data]) w)
  | DeleteSession => set_activeSessions (delete sessionId (activeSessions w)) w
  | RemoveAuthDir => set_authSessions (delete sessionId (authSessions w)) w
  | SaveCreds => set_authSessions (<[sessionId := true]> (authSessions w)) w
  end.

Definition apply_effects (sessionId : string) (data : Ref) (es : list Effect) (w : World)
  : World :=
  foldl (λ w e, apply_effect sessionId data e w) w es.

(** A socket emits an event: the listener registered on it for that event
    runs on the object it closed over. *)
Definition deliver (DR : DisconnectReason) (now : Z) (k : SocketId) (ev : SocketEvent)
    (w : World) : World :=
  match sockets w !! k with
  | Some sk =>
      match heap w !! sock_data sk with
      | Some s =>
          let '(s', es) := handle DR now (nextTimer w) ev s in
          apply_effects (sock_session sk) (sock_data sk) es
            (set_heap (<[sock_data sk := s']> (heap w)) w)
      | None => w
      end
  | None => w
  end.

(** ** initializeWhatsApp *)

(** What the outside world answers during one call: whether
    [useMultiFileAuthState] and [fetchLatestBaileysVersion] resolve, whether
    the probe of web.whatsapp.com succeeds, whether [makeWASocket] returns,
    and what [socket.sendMessage] does (rejects with a message, or resolves
    with [result.key.id]). *)
Record Env := {
  authStateLoads : bool;
  versionFetched : bool;
  whatsappReachable : bool;
  socketCreated : bool;
  sendOutcome : string + string
}.

Inductive InitError :=
  | AuthStateFailed
  | VersionFetchFailed
  | CannotReachWhatsApp
  | SocketCreationFailed.

(** Lines 65-87: the existing record is returned as it is. *)
Definition reusable (now : Z) (existingSession : SessionData) : bool :=
  if isConnected existingSession then true
  else
    match qrGeneratedAt existingSession with
    | Some generatedAt =>
        truthy (qrCode existingSession) && negb (qrScanned existingSession)
        && negb (isExpired now generatedAt)
    | None => false
    end.

(** [socket.end()] on a handle. *)
Definition end_socket (k : SocketId) (w : World) : World :=
  set_sockets (alter (λ sk, mkSocket (sock_session sk) (sock_data sk) sock_ended) k (sockets w)) w.

(** Lines 90-97: end the socket of the existing record, if it has one, and
    drop the record from the registry. *)
Definition teardown (sessionId : string) (existingSession : SessionData) (w : World) : World :=
  let w1 := match socket existingSession with
            | Some k => end_socket k w
            | None => w
            end in
  set_activeSessions (delete sessionId (activeSessions w1)) w1.

(** Lines 102-132: credentials with [creds.json] are kept, a directory
    without it is removed, and the directory is created when missing. *)
Definition prepare_auth_dir (sessionId : string) (w : World) : World :=
  match authSessions w !! sessionId with
  | Some true => w
  | _ => set_authSessions (<[sessionId := false]> (authSessions w)) w
  end.

(** Lines 134-459: a new record, a new socket with its two listeners, and
    the registration under [sessionId]. *)
Definition fresh_attempt (env : Env) (sessionId : string) (w : World)
  : (InitError + Ref) * World :=
  let w1 := prepare_auth_dir sessionId w in
  if negb (authStateLoads env) then (inl AuthStateFailed, w1)
  else if negb (versionFetched env) then (inl VersionFetchFailed, w1)
  else if negb (whatsappReachable env) then (inl CannotReachWhatsApp, w1)
  else if negb (socketCreated env) then (inl SocketCreationFailed, w1)
  else
    let k := nextSocket w1 in
    let r := nextRef w1 in
    let sessionData := set_socket (Some k) newSessionData in
    (inr r,
     set_nextRef (S r) (set_nextSocket (S k)
       (set_activeSessions (<[sessionId := r]> (activeSessions w1))
         (set_heap (<[r := sessionData]> (heap w1))
           (set_sockets (<[k := mkSocket sessionId r sock_live]> (sockets w1)) w1))))).

(** [initializeWhatsApp(sessionId)]: the error it throws or the record it
    returns, and the process afterwards. *)
Definition initializeWhatsApp (env : Env) (now : Z) (sessionId : string) (w : World)
  : (InitError + Ref) * World :=
  match get_session sessionId w with
  | Some (r, existingSession) =>
      if reusable now existingSession then (inr r, w)
      else fresh_attempt env sessionId (teardown sessionId existingSession w)
  | None => fresh_attempt env sessionId w
  end.

(** Apply [f] to the object [data]. *)
Definition update_data (data : Ref) (f : SessionData → SessionData) (w : World) : World :=
  set_heap (alter f data (heap w)) w.

(** The callback given to [setTimeout] (lines 358-365, 383-390, 405-412)
    runs: the handle is dropped, [initializeWhatsApp] is called, and its
    failure marks the old object failed. *)
Definition fire_timer (env : Env) (now : Z) (t : TimerId) (w : World) : World :=
  match list_find (λ tm, timer_id tm = t) (timers w) with
  | Some (_, tm) =>
      let w1 := set_timers (cancel t (timers w)) w in
      let w2 := update_data (timer_data tm) (set_reconnectTimer None) w1 in
      let '(res, w3) := initializeWhatsApp env now (timer_session tm) w2 in
      match res with
      | inl _ => update_data (timer_data tm) (set_status "failed") w3
      | inr _ => w3
      end
  | None => w
  end.

(** ** sendWhatsAppMessage, getQRCode, getSessionStatus *)

Inductive ServiceError :=
  | SessionNotFound (sessionId : string)
  | NotConnected
  | TransportFailure (message : string).

(** [error.message]. *)
Definition error_message (e : ServiceError) : string :=
  match e with
  | SessionNotFound sessionId =>
      "Session " +:+ sessionId +:+ " not found. Please initialize first."
  | NotConnected => "WhatsApp not connected. Please scan QR code first."
  | TransportFailure message => message
  end.

Record SendResult := mkSendResult {
  messageId : string;
  to : string;
  jid : string
}.

Definition is_digit (c : ascii) : bool :=
  (48 <=? nat_of_ascii c)%nat && (nat_of_ascii c <=? 57)%nat.

(** [phoneNumber.replace(/\D/g, '')]. *)
Fixpoint digitsOnly (phoneNumber : string) : string :=
  match phoneNumber with
  | EmptyString => EmptyString
  | String c r => if is_digit c then String c (digitsOnly r) else digitsOnly r
  end.

(** [sendWhatsAppMessage(sessionId, phoneNumber, message)].  A record that
    is connected without a socket makes [session.socket.sendMessage] a
    [TypeError]. *)
Definition sendWhatsAppMessage (env : Env) (sessionId phoneNumber message : string)
    (w : World) : ServiceError + SendResult :=
  match get_session sessionId w with
  | None => inl (SessionNotFound sessionId)
  | Some (_, session) =>
      if negb (isConnected session) then inl NotConnected
      else
        let jid := digitsOnly phoneNumber +:+ "@s.whatsapp.net" in
        match socket session with
        | None => inl (TransportFailure "TypeError")
        | Some _ =>
            match sendOutcome env with
            | inl m => inl (TransportFailure m)
            | inr id => inr (mkSendResult id phoneNumber jid)
            end
        end
  end.

(** The object [getQRCode] returns; [qrGeneratedAt] is the ISO string of the
    [Date], which [new Date(...).getTime()] reads back as the same
    millisecond value. *)
Record QrData := mkQrData {
  qd_qrCode : option string;
  qd_status : string;
  qd_isConnected : bool;
  qd_phoneNumber : option string;
  qd_qrGeneratedAt : option Z
}.

Definition getQRCode (sessionId : string) (w : World) : option QrData :=
  match get_session sessionId w with
  | None => None
  | Some (_, session) =>
      Some (mkQrData (qrCode session) (status session) (isConnected session)
                     (phoneNumber session) (qrGeneratedAt session))
  end.

Record SessionStatus := mkSessionStatus {
  st_exists : bool;
  st_status : string;
  st_isConnected : bool;
  st_phoneNumber : option string;
  st_hasQRCode : bool
}.

Definition getSessionStatus (sessionId : string) (w : World) : SessionStatus :=
  match get_session sessionId w with
  | None => mkSessionStatus false "not_initialized" false None false
  | Some (_, session) =>
      mkSessionStatus true (status session) (isConnected session) (phoneNumber session)
                      (truthy (qrCode session))
  end.

(** ** middleware/validation.js *)

(** A string is its sequence of UTF-16 code units; the model has the code
    units below 256.  Among these, the white space of [\s] and of [trim] is
    TAB, LF, VT, FF, CR, the space and the no-break space. *)
Definition js_space (c : ascii) : bool :=
  ((9 <=? nat_of_ascii c)%nat && (nat_of_ascii c <=? 13)%nat)
  || (nat_of_ascii c =? 32)%nat || (nat_of_ascii c =? 160)%nat.

(** [s.trimStart()], [s.trimEnd()] and [s.trim()]. *)
Fixpoint trimStart (s : string) : string :=
  match s with
  | EmptyString => EmptyString
  | String c r => if js_space c then trimStart r else s
  end.

Fixpoint trimEnd (s : string) : string :=
  match s with
  | EmptyString => EmptyString
  | String c r =>
      if js_space c && String.eqb (trimEnd r) "" then EmptyString
      else String c (trimEnd r)
  end.

Definition trim (s : string) : string := trimEnd (trimStart s).

(** Every character of [s] satisfies [p]. *)
Fixpoint all_chars (p : ascii → bool) (s : string) : bool :=
  match s with
  | EmptyString => true
  | String c r => p c && all_chars p r
  end.

(** [!v || v.trim() === ''] for a body field that is absent or a string. *)
Definition blank (v : option string) : bool :=
  match v with
  | None => true
  | Some s => negb (truthy v) || String.eqb (trim s) ""
  end.

(** The regular expressions of the file, by their syntax: a character
    class, concatenation, alternation and iteration. *)
Inductive Regex :=
  | RVoid
  | REps
  | RClass (p : ascii → bool)
  | RCat (r1 r2 : Regex)
  | RAlt (r1 r2 : Regex)
  | RStar (r : Regex).

(** [r+]. *)
Definition RPlus (r : Regex) : Regex := RCat r (RStar r).

(** Whether [r] matches the empty string. *)
Fixpoint nullable (r : Regex) : bool :=
  match r with
  | RVoid => false
  | REps => true
  | RClass _ => false
  | RCat r1 r2 => nullable r1 && nullable r2
  | RAlt r1 r2 => nullable r1 || nullable r2
  | RStar _ => true
  end.

(** What is left of [r] after the character [c]. *)
Fixpoint derive (c : ascii) (r : Regex) : Regex :=
  match r with
  | RVoid => RVoid
  | REps => RVoid
  | RClass p => if p c then REps else RVoid
  | RCat r1 r2 =>
      if nullable r1 then RAlt (RCat (derive c r1) r2) (derive c r2)
      else RCat (derive c r1) r2
  | RAlt r1 r2 => RAlt (derive c r1) (derive c r2)
  | RStar r1 => RCat (derive c r1) (RStar r1)
  end.

(** [/^r$/.test(s)]. *)
Fixpoint regex_test (r : Regex) (s : string) : bool :=
  match s with
  | EmptyString => nullable r
  | String c s' => regex_test (derive c r) s'
  end.

(** The words of a regular expression. *)
Inductive Matches : Regex → string → Prop :=
  | MEps : Matches REps ""
  | MClass p c : p c = true → Matches (RClass p) (String c "")
  | MCat r1 r2 s1 s2 : Matches r1 s1 → Matches r2 s2 → Matches (RCat r1 r2) (s1 +:+ s2)
  | MAltL r1 r2 s : Matches r1 s → Matches (RAlt r1 r2) s
  | MAltR r1 r2 s : Matches r2 s → Matches (RAlt r1 r2) s
  | MStarNil r : Matches (RStar r) ""
  | MStarApp r s1 s2 : Matches r s1 → Matches (RStar r) s2 → Matches (RStar r) (s1 +:+ s2).

(** [[^\s@]] and a single character. *)
Definition not_space_at (c : ascii) : bool := negb (js_space c) && negb (Ascii.eqb c "@").
Definition just (x : ascii) (c : ascii) : bool := Ascii.eqb c x.

(** [/^[^\s@]+@[^\s@]+\.[^\s@]+$/]. *)
Definition emailRegex : Regex :=
  RCat (RPlus (RClass not_space_at))
    (RCat (RClass (just "@"))
       (RCat (RPlus (RClass not_space_at))
          (RCat (RClass (just ".")) (RPlus (RClass not_space_at))))).

(** [isValidEmail(email)] (lines 131-134). *)
Definition isValidEmail (email : string) : bool := regex_test emailRegex email.

(** The fields of the body of [POST /send/:sessionId] that the code reads.
    A field is absent ([None]) or a string. *)
Record SendBody := mkSendBody {
  body_phoneNumber : option string;
  body_message : option string
}.

(** [validateWhatsAppMessage] (lines 140-167): the error of the 400 answer,
    or [None] when [next()] is called. *)
Definition validateWhatsAppMessage (body : SendBody) : option string :=
  if blank (body_phoneNumber body) then
    Some "phoneNumber is required and cannot be empty"
  else if blank (body_message body) then
    Some "message is required and cannot be empty"
  else
    let digits := digitsOnly (default "" (body_phoneNumber body)) in
    if (String.length digits <? 10)%nat || (15 <? String.length digits)%nat then
      Some "phoneNumber must contain 10-15 digits"
    else None.

(** The fields of the body of [POST /email/send]. *)
Record EmailFields := mkEmailFields {
  f_to : option string;
  f_subject : option string;
  f_text : option string;
  f_html : option string;
  f_cc : option string;
  f_bcc : option string
}.

(** [validateEmail] (lines 173-206). *)
Definition validateEmail (body : EmailFields) : option string :=
  if blank (f_to body) then Some "Recipient email address (to) is required"
  else if blank (f_subject body) then Some "Email subject is required"
  else if negb (isValidEmail (default "" (f_to body))) then
    Some "Invalid email format for recipient (to)"
  else if blank (f_text body) && blank (f_html body) then
    Some "At least one of text or html email body is required"
  else None.

(** ** routes/whatsapp.js *)

(** The JSON body of [GET /qr/:sessionId] when the session exists. *)
Record QrBody := mkQrBody {
  r_qrCode : option string;
  r_status : string;
  r_isConnected : bool;
  r_phoneNumber : option string;
  r_message : option string;
  r_qrGeneratedAt : option Z
}.

Inductive QrResponse :=
  | Qr404 (sessionId : string)
  | Qr200 (body : QrBody).

(** [router.get('/qr/:sessionId')] (lines 45-115). *)
Definition qr_route (now : Z) (sessionId : string) (w : World) : QrResponse :=
  match getQRCode sessionId w with
  | None => Qr404 sessionId
  | Some qrData =>
      let whole :=
        Qr200 (mkQrBody (qd_qrCode qrData) (qd_status qrData) (qd_isConnected qrData)
                        (qd_phoneNumber qrData) None (qd_qrGeneratedAt qrData)) in
      if truthy (qd_qrCode qrData) then
        match qd_qrGeneratedAt qrData with
        | Some generatedAt =>
            if isExpired now generatedAt then
              Qr200 (mkQrBody None "qr_expired" (qd_isConnected qrData) None
                              (Some "QR code expired. Please reconnect.")
                              (qd_qrGeneratedAt qrData))
            else whole
        | None => whole
        end
      else whole
  end.

Inductive SendResponse :=
  | Send200 (result : SendResult)
  | Send400 (error : string)
  | Send429 (error : RateLimiter.Error)
  | Send500 (error : ServiceError).

(** [router.post('/send/:sessionId', validateWhatsAppMessage, ...)] (lines
    144-172): the middleware answers 400 before the handler runs; the
    handler asks the limiter and then the service. *)
Definition send_route (env : Env) (now : Z) (sessionId : string) (body : SendBody)
    (w : World) : SendResponse * World :=
  match validateWhatsAppMessage body with
  | Some error => (Send400 error, w)
  | None =>
      let phoneNumber := default "" (body_phoneNumber body) in
      let message := default "" (body_message body) in
      match RateLimiter.checkLimit now sessionId (whatsappLimiter w) with
      | (inl rateLimitError, _) => (Send429 rateLimitError, w)
      | (inr _, limiter) =>
          let w1 := set_whatsappLimiter limiter w in
          match sendWhatsAppMessage env sessionId phoneNumber message w1 with
          | inl error => (Send500 error, w1)
          | inr result => (Send200 result, w1)
          end
      end
  end.

(** [router.delete('/disconnect/:sessionId')] (lines 178-227); the answer
    is 200 in both cases. *)
Definition disconnect_route (sessionId : string) (w : World) : World :=
  match get_session sessionId w with
  | None => w
  | Some (r, session) =>
      let '(session1, es) := clear_reconnectTimer session in
      let w1 := apply_effects sessionId r es (set_heap (<[r := session1]> (heap w)) w) in
      let w2 :=
        match socket session1 with
        | Some k =>
            set_sockets
              (alter (λ sk, mkSocket (sock_session sk) (sock_data sk)
                              (if isConnected session1 then sock_logged_out else sock_ended))
                     k (sockets w1)) w1
        | None => w1
        end in
      set_activeSessions (delete sessionId (activeSessions w2)) w2
  end.

(** ** Runs of the process *)

(** One turn of the event loop: an HTTP request, an event emitted by a
    socket, or a timer that fires. *)
Inductive Action :=
  | ApiConnect (env : Env) (now : Z) (sessionId : string)
  | ApiSend (env : Env) (now : Z) (sessionId : string) (body : SendBody)
  | ApiDisconnect (sessionId : string)
  | SocketEmits (now : Z) (k : SocketId) (ev : SocketEvent)
  | TimerFires (env : Env) (now : Z) (t : TimerId).

Definition step (DR : DisconnectReason) (a : Action) (w : World) : World :=
  match a with
  | ApiConnect env now sessionId => snd (initializeWhatsApp env now sessionId w)
  | ApiSend env now sessionId body => snd (send_route env now sessionId body w)
  | ApiDisconnect sessionId => disconnect_route sessionId w
  | SocketEmits now k ev => deliver DR now k ev w
  | TimerFires env now t => fire_timer env now t w
  end.

Definition run (DR : DisconnectReason) (acts : list Action) (w : World) : World :=
  foldl (λ w a, step DR a w) w acts.

(** ** Concrete values used in the examples *)

(** The values DISCONNECTION_SCENARIOS.md lists for the two constants. *)
Definition documentedReasons : DisconnectReason :=
  {| loggedOut := 401; restartRequired := 503 |}.

(** Every outside call succeeds. *)
Definition online : Env :=
  {| authStateLoads := true; versionFetched := true; whatsappReachable := true;
     socketCreated := true; sendOutcome := inr "3EB0A1" |}.

(** The update by which the transport hands over a pairing string. *)
Definition qr_event (code : string) : SocketEvent :=
  EvConnectionUpdate {| connection := None; qr := Some code; statusCode := None |} None.

(** The update of a closed connection. *)
Definition close_event (code : Z) : SocketEvent :=
  EvConnectionUpdate (closed_with (Some code)) None.

(** [session.field], read through the registry. *)
Definition session_field {A} (f : SessionData → A) (sessionId : string) (w : World)
  : option A :=
  f <$> (snd <$> get_session sessionId w).

(** ** The reconnect timers of a record *)

(** The pending timers whose callback closes over the object [data]. *)
Definition timers_of (data : Ref) (w : World) : list Timer :=
  filter (λ tm, timer_data tm = data) (timers w).

(** The pending timers whose callback reconnects the session [sessionId]. *)
Definition timers_for (sessionId : string) (w : World) : list Timer :=
  filter (λ tm, timer_session tm = sessionId) (timers w).

(** The effects that reach the timer queue. *)
Definition timer_effect (e : Effect) : Prop :=
  match e with
  | ClearTimeout _ | SetTimeout _ _ => True
  | _ => False
  end.

(** What one handler call does to [reconnectTimer]: it keeps the field and
    leaves the queue alone; or it cancels the timer the field holds and
    empties the field; or it finds the field empty and stores the handle of
    the one timer it sets. *)
Inductive timer_change (fresh : TimerId) (s s' : SessionData) : list Effect → Prop :=
  | tc_keep es :
      reconnectTimer s' = reconnectTimer s →
      Forall (λ e, ¬ timer_effect e) es →
      timer_change fresh s s' es
  | tc_clear t es :
      reconnectTimer s = Some t →
      reconnectTimer s' = None →
      Forall (λ e, ¬ timer_effect e) es →
      timer_change fresh s s' (ClearTimeout t :: es)
  | tc_set delay :
      reconnectTimer s = None →
      reconnectTimer s' = Some fresh →
      timer_change fresh s s' [SetTimeout fresh delay].

(** The timer queue and the [reconnectTimer] fields agree: handles are
    unique and below the next handle, a pending timer is the one its object
    holds, a held handle is pending, and objects are below the next
    reference. *)
Record timers_wf (w : World) : Prop := mk_timers_wf {
  wf_nodup : NoDup (timer_id <$> timers w);
  wf_fresh : ∀ tm, tm ∈ timers w → (timer_id tm < nextTimer w)%nat;
  wf_owner : ∀ tm, tm ∈ timers w →
             ∃ s, heap w !! timer_data tm = Some s ∧ reconnectTimer s = Some (timer_id tm);
  wf_field : ∀ r s t, heap w !! r = Some s → reconnectTimer s = Some t →
             ∃ tm, tm ∈ timers w ∧ timer_id tm = t ∧ timer_data tm = r;
  wf_heap : ∀ r, is_Some (heap w !! r) → (r < nextRef w)%nat
}.

(** ** Sequences of limiter calls *)

(** Calls of [checkLimit] for any identifiers, at the given clock
    readings; the answers are dropped. *)
Definition checkMany (calls : list (Z * string)) (rl : RateLimiter.t) : RateLimiter.t :=
  foldl (λ rl c, (RateLimiter.checkLimit c.1 c.2 rl).2) rl calls.

(** ** services/emailService.js *)

Module EmailService.

(** [accountConfig]: a field is absent or holds a value; [port] is absent
    also when [parseInt] gave [NaN]. *)
Record AccountConfig := mkAccount {
  host : option string;
  port : option Z;
  user : option string;
  pass : option string
}.

(** [!accountConfig.port]. *)
Definition port_missing (p : option Z) : bool :=
  match p with
  | Some n => n =? 0
  | None => true
  end.

(** The object given to [nodemailer.createTransport]. *)
Record Transporter := mkTransporter {
  t_host : string;
  t_port : Z;
  t_secure : bool;
  t_user : string;
  t_pass : string
}.

(** [createTransporter(accountConfig)] (lines 25-52): the message of the
    error it throws, or the transporter. *)
Definition createTransporter (accountConfig : AccountConfig) : string + Transporter :=
  if negb (truthy (user accountConfig)) || negb (truthy (pass accountConfig)) then
    inl ("Failed to create email transporter: " +:+
         "SMTP credentials are missing. Please provide user and pass in accountConfig")
  else if negb (truthy (host accountConfig)) || port_missing (port accountConfig) then
    inl ("Failed to create email transporter: " +:+
         "SMTP host and port are missing. Please provide host and port in accountConfig")
  else
    inr (mkTransporter (default "" (host accountConfig)) (default 0 (port accountConfig))
                       false (default "" (user accountConfig))
                       (default "" (pass accountConfig))).

(** [options] of [sendEmail]. *)
Record Options := mkOptions {
  to : option string;
  subject : option string;
  text : option string;
  html : option string;
  cc : option string;
  bcc : option string;
  attachments : option (list string)
}.

(** [mailOptions], as given to [transporter.sendMail]; [cc] and [bcc] are
    present only when the option is a non-empty string. *)
Record MailOptions := mkMailOptions {
  m_from : string;
  m_to : string;
  m_subject : string;
  m_text : option string;
  m_html : option string;
  m_attachments : list string;
  m_cc : option string;
  m_bcc : option string
}.

(** What [transporter.sendMail] does: it rejects with an error message, or
    resolves with [info.messageId] and [info.response]. *)
Definition Smtp := Transporter → MailOptions → string + (string * string).

Inductive Result :=
  | Sent (messageId response : string)
  | Failed (error : string).

(** [a || b] on string-or-absent values. *)
Definition or_else (a b : option string) : option string :=
  if truthy a then a else b.

(** The option when it is a non-empty string. *)
Definition present (a : option string) : option string :=
  if truthy a then a else None.

(** [sendEmail(accountConfig, options)] (lines 71-122); every error is
    caught and returned. *)
Definition sendEmail (smtp : Smtp) (accountConfig : AccountConfig) (options : Options)
  : Result :=
  if negb (truthy (to options)) then Failed "Recipient email address (to) is required"
  else if negb (truthy (subject options)) then Failed "Email subject is required"
  else
    match createTransporter accountConfig with
    | inl message => Failed message
    | inr transporter =>
        let mailOptions :=
          mkMailOptions (t_user transporter) (default "" (to options))
            (default "" (subject options)) (text options)
            (or_else (html options) (text options))
            (default [] (attachments options))
            (present (cc options)) (present (bcc options)) in
        match smtp transporter mailOptions with
        | inl message =>
            Failed (if String.eqb message "" then "Failed to send email" else message)
        | inr (messageId, response) => Sent messageId response
        end
    end.

End EmailService.

(** ** routes/email.js *)

Inductive EmailResponse :=
  | Email200 (messageId response : string)
  | EmailTest200 (messageId : string)
  | Email400 (error : string)
  | Email429 (error : RateLimiter.Error)
  | Email500 (error : string).

(** [router.post('/send', validateEmail, ...)] (lines 41-82).
    [defaultAccount] is what [getDefaultAccount()] reads from the
    environment; the limiter is [emailLimiter]. *)
Definition email_send_route (smtp : EmailService.Smtp) (now : Z)
    (defaultAccount : EmailService.AccountConfig)
    (accountConfig : option EmailService.AccountConfig) (body : EmailFields)
    (emailLimiter : RateLimiter.t) : EmailResponse * RateLimiter.t :=
  match validateEmail body with
  | Some error => (Email400 error, emailLimiter)
  | None =>
      match RateLimiter.checkLimit now (default "" (f_to body)) emailLimiter with
      | (inl rateLimitError, _) => (Email429 rateLimitError, emailLimiter)
      | (inr _, limiter) =>
          let emailAccount := default defaultAccount accountConfig in
          let emailOptions :=
            EmailService.mkOptions (f_to body) (f_subject body) (f_text body) (f_html body)
                                   (f_cc body) (f_bcc body) None in
          match EmailService.sendEmail smtp emailAccount emailOptions with
          | EmailService.Sent messageId response => (Email200 messageId response, limiter)
          | EmailService.Failed error => (Email500 error, limiter)
          end
      end
  end.

(** [router.post('/test', ...)] (lines 89-122); [stamp] is
    [new Date().toISOString()]. *)
Definition email_test_route (smtp : EmailService.Smtp) (stamp : string)
    (defaultAccount : EmailService.AccountConfig)
    (accountConfig : option EmailService.AccountConfig) : EmailResponse :=
  let emailAccount := default defaultAccount accountConfig in
  let testEmailOptions :=
    EmailService.mkOptions (EmailService.user emailAccount)
      (Some "Test Email from WhatsApp-Email Messenger")
      (Some ("This is a test email sent at " +:+ stamp)) None None None None in
  match EmailService.sendEmail smtp emailAccount testEmailOptions with
  | EmailService.Sent messageId _ => EmailTest200 messageId
  | EmailService.Failed error => Email500 error
  end.

(** ** What the records and the registry keep *)

(** A record is consistent: status [connected] only while connected and
    without QR code; no timer handle while connected; a stored QR code is
    non-empty and has its generation time. *)
Definition session_ok (s : SessionData) : Prop :=
  (status s = "connected" → isConnected s = true ∧ qrCode s = None)
  ∧ (isConnected s = true → reconnectTimer s = None)
  ∧ (qrCode s ≠ None → truthy (qrCode s) = true ∧ is_Some (qrGeneratedAt s)).

Definition sessions_ok (w : World) : Prop :=
  ∀ r s, heap w !! r = Some s → session_ok s.



(** Effects can be compared. *)
#[global] Instance Effect_eq_dec : EqDecision Effect.
Proof. solve_decision. Defined.

(** * Properties *)

(** ** The rate limiter *)

Section RateLimiterFacts.
Import RateLimiter.

Lemma filter_keep_all {A} (P : A → Prop) `{!∀ x, Decision (P x)} (l : list A) :
  Forall P l → filter P l = l.
Proof.
  induction 1 as [|x l Hx _ IH]; [done|].
  rewrite filter_cons_True by done. by rewrite IH.
Qed.

Lemma filter_drop_all {A} (P : A → Prop) `{!∀ x, Decision (P x)} (l : list A) :
  Forall (λ x, ¬ P x) l → filter P l = [].
Proof.
  induction 1 as [|x l Hx _ IH]; [done|].
  by rewrite filter_cons_False.
Qed.

Lemma foldr_min_head (t1 : Z) (rest : list Z) :
  Forall (λ t, t1 <= t) rest → foldr Z.min t1 rest = t1.
Proof.
  induction 1 as [|x l Hx _ IH]; simpl; [done|]. rewrite IH. lia.
Qed.

Lemma userRequests_insert key l rl :
  userRequests key (mk (maxRequests rl) (timeWindowMs rl) (<[key := l]> (requests rl))) = l.
Proof. unfold userRequests. simpl. by rewrite lookup_insert_eq. Qed.

(** A check that finds fewer than [maxRequests] timestamps in the window
    succeeds and stores the pruned list followed by [now]. *)
Lemma checkLimit_allows now key rl :
  Z.of_nat (length (validRequests now key rl)) < maxRequests rl →
  checkLimit now key rl
  = (inr tt, mk (maxRequests rl) (timeWindowMs rl)
                (<[key := validRequests now key rl ++ [now]]> (requests rl))).
Proof. intros H. unfold checkLimit. case_decide; [lia|done]. Qed.

(** A check that finds [maxRequests] or more timestamps in the window
    throws and leaves the limiter as it was. *)
Lemma checkLimit_rejects now key rl :
  maxRequests rl <= Z.of_nat (length (validRequests now key rl)) →
  checkLimit now key rl
  = (inl (RateLimitExceeded
            (minus_minus (timeWindowMs rl) now (Math_min (validRequests now key rl)))), rl).
Proof. intros H. unfold checkLimit. case_decide; [done|lia]. Qed.

(** Checks whose clock readings and recorded timestamps all lie in an
    interval shorter than the window succeed as long as the count stays
    within [maxRequests]; each appends its reading. *)
Lemma checkAll_within (lo hi : Z) key (times : list Z) : ∀ rl,
  hi - lo < timeWindowMs rl →
  Forall (λ e, lo <= e <= hi) (userRequests key rl) →
  Forall (λ t, lo <= t <= hi) times →
  Z.of_nat (length (userRequests key rl) + length times) <= maxRequests rl →
  (checkAll times key rl).1 = replicate (length times) (inr tt)
  ∧ maxRequests (checkAll times key rl).2 = maxRequests rl
  ∧ timeWindowMs (checkAll times key rl).2 = timeWindowMs rl
  ∧ userRequests key (checkAll times key rl).2 = userRequests key rl ++ times.
Proof.
  induction times as [|now later IH]; intros rl Hw Hcur Htimes Hlen.
  - simpl. by rewrite app_nil_r.
  - apply Forall_cons in Htimes as [Hnow Hlater].
    assert (Hvalid : validRequests now key rl = userRequests key rl).
    { unfold validRequests. apply filter_keep_all.
      eapply Forall_impl; [exact Hcur|]. simpl. intros e He. lia. }
    simpl in Hlen. simpl.
    rewrite checkLimit_allows by (rewrite Hvalid; lia).
    rewrite Hvalid.
    set (rl1 := mk _ _ _).
    assert (Hu1 : userRequests key rl1 = userRequests key rl ++ [now])
      by apply userRequests_insert.
    destruct (IH rl1) as (Hr & Hm & Ht & Hu).
    + done.
    + rewrite Hu1. apply Forall_app. split; [done|]. by apply Forall_singleton.
    + done.
    + rewrite Hu1, length_app. simpl in *. lia.
    + destruct (checkAll later key rl1) as [rs rl2] eqn:E. simpl in *.
      rewrite Hr, Hm, Ht, Hu, Hu1, <- app_assoc. done.
Qed.

(** C9. Starting with no timestamp of [key] inside the window,
    [maxRequests] checks at readings [t1 :: rest] that all lie within one
    window succeed; one more check at [t_next], still inside the window
    that opened at [t1], is rejected with
    [waitTime = timeWindowMs - (t_next - t1)], which is positive and at
    most the window; and a check at [t_later], once the window has
    elapsed past [t1], succeeds again. *)
Theorem checkLimit_sliding_window key rl (t1 : Z) (rest : list Z) (t_next t_later : Z) :
  Z.of_nat (length (t1 :: rest)) = maxRequests rl →
  Forall (λ e, timeWindowMs rl <= t1 - e) (userRequests key rl) →
  Forall (λ t, t1 <= t <= t_next) rest →
  t1 <= t_next < t1 + timeWindowMs rl →
  t1 + timeWindowMs rl <= t_later →
  let rl' := (checkAll (t1 :: rest) key rl).2 in
  (checkAll (t1 :: rest) key rl).1 = replicate (length (t1 :: rest)) (inr tt)
  ∧ checkLimit t_next key rl'
    = (inl (RateLimitExceeded (Num (timeWindowMs rl - (t_next - t1)))), rl')
  ∧ 0 < timeWindowMs rl - (t_next - t1) <= timeWindowMs rl
  ∧ (checkLimit t_later key rl').1 = inr tt.
Proof.
  intros Hn Hold Hrest Hnext Hlater. simpl in Hn.
  assert (Hvalid1 : validRequests t1 key rl = []).
  { unfold validRequests. apply filter_drop_all.
    eapply Forall_impl; [exact Hold|]. simpl. intros e He. lia. }
  cbn [checkAll].
  rewrite checkLimit_allows by (rewrite Hvalid1; simpl; lia).
  rewrite Hvalid1. simpl app.
  set (rl1 := mk _ _ _).
  assert (Hu1 : userRequests key rl1 = [t1]) by apply userRequests_insert.
  destruct (checkAll_within t1 t_next key rest rl1) as (Hr & Hm & Ht & Hu).
  { simpl. lia. }
  { rewrite Hu1. apply Forall_singleton. lia. }
  { done. }
  { rewrite Hu1. simpl in *. lia. }
  destruct (checkAll rest key rl1) as [rs rl2] eqn:E. simpl in Hr, Hm, Ht, Hu.
  simpl. rewrite Hu1 in Hu. simpl in Hu.
  assert (Hin : validRequests t_next key rl2 = t1 :: rest).
  { unfold validRequests. rewrite Hu, Ht. apply filter_keep_all.
    apply Forall_cons. split; [lia|].
    eapply Forall_impl; [exact Hrest|]. simpl. intros t Htt. lia. }
  split; [by rewrite Hr|]. split; [|split; [lia|]].
  - rewrite checkLimit_rejects by (rewrite Hin, Hm; simpl; lia).
    rewrite Hin, Ht. simpl.
    rewrite foldr_min_head; [done|].
    eapply Forall_impl; [exact Hrest|]. simpl. intros t Htt. lia.
  - rewrite checkLimit_allows; [done|].
    unfold validRequests. rewrite Hu, Ht, Hm.
    rewrite filter_cons_False by (simpl; lia).
    pose proof (length_filter (λ timestamp, t_later - timestamp < timeWindowMs rl) rest).
    simpl. lia.
Qed.

(** C10. A check that finds [maxRequests] or more timestamps of the key
    inside the window throws, and the limiter afterwards is the limiter
    before: the list recorded for the key, out-of-window timestamps
    included, is untouched. *)
Theorem checkLimit_failure_keeps_state now key rl :
  maxRequests rl <= Z.of_nat (length (validRequests now key rl)) →
  (∃ e, (checkLimit now key rl).1 = inl e)
  ∧ (checkLimit now key rl).2 = rl
  ∧ requests (checkLimit now key rl).2 !! key = requests rl !! key.
Proof.
  intros H. rewrite checkLimit_rejects by done. simpl. eauto.
Qed.

End RateLimiterFacts.

(** The message limiter: thirty sends of "s1" between 1000 and 1029 ms, the
    thirty-first at 1500 ms, and a retry at 61000 ms. *)
Lemma checkLimit_sliding_window_witness :
  let rl := RateLimiter.whatsappLimiter in
  let rl' := (RateLimiter.checkAll (1000 :: (Z.of_nat <$> seq 1001 29)) "s1" rl).2 in
  (RateLimiter.checkAll (1000 :: (Z.of_nat <$> seq 1001 29)) "s1" rl).1
  = replicate 30 (inr tt)
  ∧ RateLimiter.checkLimit 1500 "s1" rl'
    = (inl (RateLimiter.RateLimitExceeded (Num 59500)), rl')
  ∧ 0 < 60000 - (1500 - 1000) <= 60000
  ∧ (RateLimiter.checkLimit 61000 "s1" rl').1 = inr tt.
Proof.
  refine (checkLimit_sliding_window "s1" RateLimiter.whatsappLimiter 1000
            (Z.of_nat <$> seq 1001 29) 1500 61000 _ _ _ _ _).
  - reflexivity.
  - vm_compute. constructor.
  - vm_compute. repeat (constructor; [split; discriminate|]). constructor.
  - vm_compute. split; [discriminate|reflexivity].
  - vm_compute. discriminate.
Defined.

(** A limiter of two requests per second holding a stale timestamp: the
    rejected check at 1200 ms leaves [0; 500; 900] in place. *)
Lemma checkLimit_failure_keeps_state_witness :
  let rl := RateLimiter.mk 2 1000 {[ "k" := [0; 500; 900] ]} in
  (∃ e, (RateLimiter.checkLimit 1200 "k" rl).1 = inl e)
  ∧ (RateLimiter.checkLimit 1200 "k" rl).2 = rl
  ∧ RateLimiter.requests (RateLimiter.checkLimit 1200 "k" rl).2 !! "k"
    = Some [0; 500; 900].
Proof.
  intros rl.
  destruct (checkLimit_failure_keeps_state 1200 "k" rl) as (He & Hrl & Hk).
  - vm_compute. discriminate.
  - split; [exact He|]. split; [exact Hrl|]. rewrite Hk. reflexivity.
Defined.

(** A limiter built with [maxRequests = 0] rejects the first check, and
    [Math.min()] of no timestamp makes the wait time infinite. *)
Lemma checkLimit_zero_max :
  (RateLimiter.checkLimit 1000 "s1" (RateLimiter.create 0 60000)).1
  = inl (RateLimiter.RateLimitExceeded Infinity).
Proof. vm_compute. reflexivity. Qed.

(** ** The handlers of one record *)

Lemma schedule_reconnect_idle fresh delay s :
  reconnectTimer s = None →
  schedule_reconnect fresh delay s
  = (set_reconnectTimer (Some fresh) s, [SetTimeout fresh delay]).
Proof. intros H. unfold schedule_reconnect. by rewrite H. Qed.

Lemma schedule_reconnect_pending fresh delay s t :
  reconnectTimer s = Some t → schedule_reconnect fresh delay s = (s, []).
Proof. intros H. unfold schedule_reconnect. by rewrite H. Qed.

Lemma on_qr_qrScanned now upd s : qrScanned (on_qr now upd s) = qrScanned s.
Proof. unfold on_qr. by destruct (truthy (qr upd)). Qed.

Lemma on_qr_reconnectTimer now upd s : reconnectTimer (on_qr now upd s) = reconnectTimer s.
Proof. unfold on_qr. by destruct (truthy (qr upd)). Qed.

Lemma on_qr_closed_with now code s : on_qr now (closed_with code) s = s.
Proof. done. Qed.

(** A connection-closed event with a recoverable code that is not the
    logout code runs lines 335-414 on the record. *)
Lemma connection_update_recoverable DR now fresh user_id upd s :
  connection upd = Some conn_close →
  code_is (statusCode upd) (loggedOut DR) = false →
  recoverable DR (statusCode upd) = true →
  connection_update DR now fresh user_id upd s
  = on_recoverable now fresh (set_isConnected false (on_qr now upd s)).
Proof.
  intros Hc Hl Hr. unfold connection_update, on_close. by rewrite Hc, Hl, Hr.
Qed.

Lemma connection_update_logout DR now fresh user_id upd s :
  connection upd = Some conn_close →
  code_is (statusCode upd) (loggedOut DR) = true →
  connection_update DR now fresh user_id upd s
  = ((clear_reconnectTimer
        (set_status "disconnected" (set_isConnected false (on_qr now upd s)))).1,
     (clear_reconnectTimer
        (set_status "disconnected" (set_isConnected false (on_qr now upd s)))).2
     ++ [DeleteSession; RemoveAuthDir]).
Proof.
  intros Hc Hl. unfold connection_update, on_close. rewrite Hc, Hl.
  by destruct (clear_reconnectTimer _).
Qed.

(** ** Events delivered to a socket *)

Lemma deliver_eq DR now k ev w sk s :
  sockets w !! k = Some sk →
  heap w !! sock_data sk = Some s →
  deliver DR now k ev w
  = apply_effects (sock_session sk) (sock_data sk) (handle DR now (nextTimer w) ev s).2
      (set_heap (<[sock_data sk := (handle DR now (nextTimer w) ev s).1]> (heap w)) w).
Proof.
  intros Hk Hs. unfold deliver. rewrite Hk, Hs. by destruct (handle _ _ _ _ _).
Qed.

(** C3. A connection-closed event with a recoverable status code (515,
    428 or restart-required, and not the logout code) reaches a record whose
    QR code was scanned: the record loses its QR code and becomes
    [reconnecting]; when no reconnect timer is outstanding, one is set with
    a delay of 2000 ms, and when one is outstanding it is kept and no other
    is set. *)
Theorem close_after_scan_reconnects DR now k user_id upd w sk s :
  sockets w !! k = Some sk →
  heap w !! sock_data sk = Some s →
  connection upd = Some conn_close →
  code_is (statusCode upd) (loggedOut DR) = false →
  recoverable DR (statusCode upd) = true →
  qrScanned s = true →
  let w' := deliver DR now k (EvConnectionUpdate upd user_id) w in
  ∃ s', heap w' !! sock_data sk = Some s'
    ∧ qrCode s' = None
    ∧ status s' = "reconnecting"
    ∧ match reconnectTimer s with
      | None =>
          reconnectTimer s' = Some (nextTimer w)
          ∧ timers w' = timers w ++ [mkTimer (nextTimer w) 2000 (sock_session sk) (sock_data sk)]
      | Some t => reconnectTimer s' = Some t ∧ timers w' = timers w
      end.
Proof.
  intros Hk Hs Hc Hl Hr Hscan w'. subst w'.
  rewrite (deliver_eq _ _ _ _ _ _ _ Hk Hs). cbn [handle].
  rewrite connection_update_recoverable by done.
  unfold on_recoverable. cbn [qrScanned set_isConnected].
  rewrite on_qr_qrScanned, Hscan.
  destruct (reconnectTimer s) as [t|] eqn:Ht.
  - erewrite schedule_reconnect_pending
      by (cbn; rewrite on_qr_reconnectTimer; exact Ht).
    cbn [fst snd apply_effects foldl heap set_heap timers].
    eexists. rewrite lookup_insert_eq. split; [done|]. cbn.
    by rewrite on_qr_reconnectTimer.
  - rewrite schedule_reconnect_idle
      by (cbn; rewrite on_qr_reconnectTimer; exact Ht).
    cbn [fst snd apply_effects foldl apply_effect heap set_heap set_nextTimer set_timers timers].
    eexists. rewrite lookup_insert_eq. split; [done|]. by cbn.
Qed.

(** "s1" is connected anew, shows a pairing string at 1 s and receives the
    credential event at 5 s; the connection closes with 515 at 6 s. *)
Lemma close_after_scan_reconnects_witness :
  let w := run documentedReasons
             [ApiConnect online 0 "s1"; SocketEmits 1000 0%nat (qr_event "2@abc");
              SocketEmits 5000 0%nat EvCredsUpdate] startup in
  let w' := deliver documentedReasons 6000 0%nat (close_event 515) w in
  ∃ s', heap w' !! 0%nat = Some s'
    ∧ qrCode s' = None
    ∧ status s' = "reconnecting"
    ∧ reconnectTimer s' = Some 0%nat
    ∧ timers w' = [mkTimer 0 2000 "s1" 0].
Proof.
  intros w w'.
  destruct (close_after_scan_reconnects documentedReasons 6000 0%nat None
              (closed_with (Some 515)) w (mkSocket "s1" 0 sock_live)
              (mkSession (Some 0%nat) false (Some "2@abc") (Some 1000) true None
                         "authenticating" None))
    as (s' & Hs' & Hqr & Hst & Ht & Hts);
    [vm_compute; reflexivity..|].
  exists s'. repeat (split; [assumption|]). exact Hts.
Defined.

(** C4. A connection-closed event with a recoverable status code reaches
    the registered record of a session that holds an unscanned QR code
    generated at [generatedAt].  If the code is at most 180 s old, no timer
    is set, the record is [qr_pending], and [getQRCode] and the QR route
    still return the same code and generation time; if it is older than
    180 s, the record becomes [reconnecting] and a reconnect timer of
    2000 ms is set (or the outstanding one is kept). *)
Theorem close_with_unscanned_qr DR now k user_id code w sk s generatedAt :
  sockets w !! k = Some sk →
  heap w !! sock_data sk = Some s →
  activeSessions w !! sock_session sk = Some (sock_data sk) →
  code_is code (loggedOut DR) = false →
  recoverable DR code = true →
  qrScanned s = false →
  truthy (qrCode s) = true →
  qrGeneratedAt s = Some generatedAt →
  let w' := deliver DR now k (EvConnectionUpdate (closed_with code) user_id) w in
  (now - generatedAt <= 180000 →
     timers w' = timers w
     ∧ getQRCode (sock_session sk) w'
       = Some (mkQrData (qrCode s) "qr_pending" false (phoneNumber s) (qrGeneratedAt s))
     ∧ qr_route now (sock_session sk) w'
       = Qr200 (mkQrBody (qrCode s) "qr_pending" false (phoneNumber s) None
                         (qrGeneratedAt s))
     ∧ ∃ s', heap w' !! sock_data sk = Some s'
         ∧ status s' = "qr_pending"
         ∧ qrScanned s' = false
         ∧ reconnectTimer s' = reconnectTimer s)
  ∧ (180000 < now - generatedAt →
     ∃ s', heap w' !! sock_data sk = Some s'
       ∧ status s' = "reconnecting"
       ∧ match reconnectTimer s with
         | None =>
             reconnectTimer s' = Some (nextTimer w)
             ∧ timers w'
               = timers w ++ [mkTimer (nextTimer w) 2000 (sock_session sk) (sock_data sk)]
         | Some t => reconnectTimer s' = Some t ∧ timers w' = timers w
         end).
Proof.
  intros Hk Hs Hreg Hl Hr Hscan Hqr Hgen w'. subst w'.
  rewrite (deliver_eq _ _ _ _ _ _ _ Hk Hs). cbn [handle].
  rewrite connection_update_recoverable by done.
  rewrite on_qr_closed_with.
  unfold on_recoverable. cbn [qrScanned qrCode qrGeneratedAt set_isConnected set_status].
  rewrite Hscan, Hqr, Hgen. unfold isExpired.
  split; intros Hage.
  - rewrite (proj2 (Z.ltb_ge _ _)) by lia.
    cbn [fst snd apply_effects foldl].
    assert (Hget : getQRCode (sock_session sk)
                     (set_heap (<[sock_data sk := set_status "qr_pending"
                                                    (set_isConnected false s)]> (heap w)) w)
                   = Some (mkQrData (qrCode s) "qr_pending" false (phoneNumber s)
                                    (qrGeneratedAt s))).
    { unfold getQRCode, get_session. cbn [activeSessions set_heap heap].
      rewrite Hreg. cbn. rewrite lookup_insert_eq. by cbn. }
    rewrite Hgen in Hget.
    split; [done|]. split; [exact Hget|]. split.
    + unfold qr_route. rewrite Hget.
      cbn [qd_qrCode qd_qrGeneratedAt qd_status qd_isConnected qd_phoneNumber].
      rewrite Hqr. unfold isExpired.
      by rewrite (proj2 (Z.ltb_ge _ _)) by lia.
    + eexists. cbn [heap set_heap]. rewrite lookup_insert_eq. split; [done|]. by cbn.
  - rewrite (proj2 (Z.ltb_lt _ _)) by lia.
    destruct (reconnectTimer s) as [t|] eqn:Ht.
    + erewrite schedule_reconnect_pending by (cbn; exact Ht).
      cbn [fst snd apply_effects foldl heap set_heap timers].
      eexists. rewrite lookup_insert_eq. split; [done|]. by cbn.
    + rewrite schedule_reconnect_idle by (cbn; exact Ht).
      cbn [fst snd apply_effects foldl apply_effect heap set_heap set_nextTimer set_timers timers].
      eexists. rewrite lookup_insert_eq. split; [done|]. by cbn.
Qed.

(** "s1" shows a pairing string generated at 1 s; the connection closes
    with 515 at 5 s (the code is kept) or at 500 s (the code is stale). *)
Lemma close_with_unscanned_qr_witness :
  let w := run documentedReasons
             [ApiConnect online 0 "s1"; SocketEmits 1000 0%nat (qr_event "2@abc")] startup in
  (timers (deliver documentedReasons 5000 0%nat (close_event 515) w) = []
   ∧ getQRCode "s1" (deliver documentedReasons 5000 0%nat (close_event 515) w)
     = Some (mkQrData (Some "2@abc") "qr_pending" false None (Some 1000)))
  ∧ timers (deliver documentedReasons 500000 0%nat (close_event 515) w)
    = [mkTimer 0 2000 "s1" 0].
Proof.
  intros w.
  set (s := mkSession (Some 0%nat) false (Some "2@abc") (Some 1000) false None
                      "qr_pending" None).
  split.
  - destruct (close_with_unscanned_qr documentedReasons 5000 0%nat None (Some 515) w
                (mkSocket "s1" 0 sock_live) s 1000) as [Hkeep _];
      [vm_compute; reflexivity..|].
    destruct Hkeep as (Ht & Hq & _); [lia|]. split; [exact Ht|exact Hq].
  - destruct (close_with_unscanned_qr documentedReasons 500000 0%nat None (Some 515) w
                (mkSocket "s1" 0 sock_live) s 1000) as [_ Hstale];
      [vm_compute; reflexivity..|].
    destruct Hstale as (s' & _ & _ & _ & Hts); [lia|]. exact Hts.
Defined.

(** C5. A connection-closed event with the logout code: the record is
    [disconnected] and holds no timer, its outstanding timer (if any) is
    cancelled and none is set, the session id is no longer in the registry,
    and its credential directory is gone from the disk. *)
Theorem logout_removes_session DR now k user_id upd w sk s :
  sockets w !! k = Some sk →
  heap w !! sock_data sk = Some s →
  connection upd = Some conn_close →
  code_is (statusCode upd) (loggedOut DR) = true →
  let w' := deliver DR now k (EvConnectionUpdate upd user_id) w in
  activeSessions w' !! sock_session sk = None
  ∧ get_session (sock_session sk) w' = None
  ∧ authSessions w' !! sock_session sk = None
  ∧ timers w' = match reconnectTimer s with
                | Some t => cancel t (timers w)
                | None => timers w
                end
  ∧ ∃ s', heap w' !! sock_data sk = Some s'
      ∧ status s' = "disconnected"
      ∧ isConnected s' = false
      ∧ reconnectTimer s' = None.
Proof.
  intros Hk Hs Hc Hl w'. subst w'.
  rewrite (deliver_eq _ _ _ _ _ _ _ Hk Hs). cbn [handle].
  rewrite connection_update_logout by done.
  unfold clear_reconnectTimer. cbn [reconnectTimer set_status set_isConnected].
  rewrite on_qr_reconnectTimer.
  destruct (reconnectTimer s) as [t|] eqn:Ht;
    cbn [fst snd app apply_effects foldl apply_effect];
    (split; [cbn; apply lookup_delete_eq|]);
    (split; [unfold get_session; cbn; by rewrite lookup_delete_eq|]);
    (split; [cbn; apply lookup_delete_eq|]);
    (split; [done|]);
    eexists; cbn; rewrite lookup_insert_eq; (split; [done|]); cbn;
    rewrite ?on_qr_reconnectTimer; done.
Qed.

(** "s1" is reconnecting with a timer pending when its connection closes
    with the logout code 401. *)
Lemma logout_removes_session_witness :
  let w := run documentedReasons
             [ApiConnect online 0 "s1"; SocketEmits 1000 0%nat EvCredsUpdate;
              SocketEmits 2000 0%nat (close_event 515)] startup in
  let w' := deliver documentedReasons 3000 0%nat (close_event 401) w in
  (activeSessions w !! "s1" = Some 0%nat ∧ authSessions w !! "s1" = Some true
   ∧ timers w = [mkTimer 0 3000 "s1" 0])
  ∧ activeSessions w' !! "s1" = None
  ∧ authSessions w' !! "s1" = None
  ∧ timers w' = []
  ∧ ∃ s', heap w' !! 0%nat = Some s' ∧ status s' = "disconnected"
      ∧ isConnected s' = false ∧ reconnectTimer s' = None.
Proof.
  intros w w'. split; [vm_compute; repeat split|].
  destruct (logout_removes_session documentedReasons 3000 0%nat None
              (closed_with (Some 401)) w (mkSocket "s1" 0 sock_live)
              (mkSession (Some 0%nat) false None None false None "reconnecting" (Some 0%nat)))
    as (Hreg & _ & Hauth & Hts & Hs');
    [vm_compute; reflexivity..|].
  split; [exact Hreg|]. split; [exact Hauth|]. split; [|exact Hs'].
  etrans; [exact Hts|]. vm_compute. reflexivity.
Defined.

(** C2 (as the code has it).  [qrScanned] becomes true only in the
    [creds.update] handler and only when the record holds a QR code, and
    that handler leaves the QR code in the record; once true, [qrScanned]
    becomes false again only in the handler of a connection-closed event
    with a recoverable status code, which also removes the QR code. *)
Theorem qrScanned_transitions DR now fresh ev s :
  let s' := (handle DR now fresh ev s).1 in
  (qrScanned s = false → qrScanned s' = true →
     ev = EvCredsUpdate ∧ truthy (qrCode s) = true ∧ qrCode s' = qrCode s)
  ∧ (qrScanned s = true → qrScanned s' = false →
     ∃ upd user_id, ev = EvConnectionUpdate upd user_id
       ∧ connection upd = Some conn_close
       ∧ code_is (statusCode upd) (loggedOut DR) = false
       ∧ recoverable DR (statusCode upd) = true
       ∧ qrCode s' = None).
Proof.
  destruct ev as [upd user_id|]; cbn [handle].
  - unfold connection_update.
    pose proof (on_qr_qrScanned now upd s) as Hq.
    set (s1 := on_qr now upd s) in *.
    destruct (connection upd) as [[| |]|] eqn:Hc.
    + unfold on_open, clear_reconnectTimer.
      destruct (reconnectTimer s1); cbn; rewrite Hq;
        (split; intros H1 H2; congruence).
    + unfold on_close.
      destruct (code_is (statusCode upd) (loggedOut DR)) eqn:Hl.
      { unfold clear_reconnectTimer. cbn [reconnectTimer set_status set_isConnected].
        destruct (reconnectTimer s1); cbn; rewrite Hq;
          (split; intros H1 H2; congruence). }
      destruct (recoverable DR (statusCode upd)) eqn:Hr.
      2:{ cbn. rewrite Hq. split; intros H1 H2; congruence. }
      unfold on_recoverable. cbn [qrScanned qrCode qrGeneratedAt set_isConnected set_status].
      rewrite Hq.
      destruct (qrScanned s) eqn:Hs.
      { split; [congruence|]. intros _ _. exists upd, user_id.
        repeat (split; [done|]).
        unfold schedule_reconnect. by destruct (reconnectTimer _). }
      split; [|congruence]. intros _.
      destruct (truthy (qrCode s1)).
      * destruct (qrGeneratedAt s1) as [g|]; [destruct (isExpired now g)|];
          unfold schedule_reconnect; cbn;
          try destruct (reconnectTimer s1); cbn; rewrite Hq; congruence.
      * unfold schedule_reconnect; cbn;
          destruct (reconnectTimer s1); cbn; rewrite Hq; congruence.
    + cbn. rewrite Hq. split; intros H1 H2; congruence.
    + cbn. rewrite Hq. split; intros H1 H2; congruence.
  - unfold creds_update. cbn [fst].
    destruct (truthy (qrCode s)) eqn:Ht.
    + split; [by intros _ _|]. cbn. congruence.
    + split; intros H1 H2; congruence.
Qed.

(** C2, as stated, fails.  Session "s1" receives a pairing string, then the
    credential event, then a closed connection with status 515: [qrScanned]
    goes from false to true and back to false; and between the credential
    event and the close the QR route still returns the scanned code. *)
Lemma scanned_flag_reverts :
  let w1 := run documentedReasons
              [ApiConnect online 0 "s1"; SocketEmits 1000 0%nat (qr_event "2@abc")] startup in
  let w2 := step documentedReasons (SocketEmits 5000 0%nat EvCredsUpdate) w1 in
  let w3 := step documentedReasons (SocketEmits 6000 0%nat (close_event 515)) w2 in
  session_field qrScanned "s1" w1 = Some false
  ∧ session_field qrScanned "s1" w2 = Some true
  ∧ session_field qrCode "s1" w2 = Some (Some "2@abc")
  ∧ qr_route 5500 "s1" w2
    = Qr200 (mkQrBody (Some "2@abc") "authenticating" false None None (Some 1000))
  ∧ session_field qrScanned "s1" w3 = Some false.
Proof. vm_compute. repeat split. Qed.

Lemma qrScanned_transitions_witness :
  let s := set_qrCode (Some "2@abc") newSessionData in
  (qrScanned s = false → qrScanned (handle documentedReasons 5000 0%nat EvCredsUpdate s).1 = true →
     EvCredsUpdate = EvCredsUpdate ∧ truthy (qrCode s) = true
     ∧ qrCode (handle documentedReasons 5000 0%nat EvCredsUpdate s).1 = qrCode s)
  ∧ qrScanned s = false
  ∧ qrScanned (handle documentedReasons 5000 0%nat EvCredsUpdate s).1 = true.
Proof.
  intros s. split; [|split; reflexivity].
  exact (proj1 (qrScanned_transitions documentedReasons 5000 0%nat EvCredsUpdate s)).
Defined.

(** ** The routes *)

(** C1, as stated, fails.  "s1" is registered and not connected; the
    body passes the validation (the phone number has 11 digits, the message
    is not blank); the send at 1000 ms is answered 500 "WhatsApp not
    connected", and the limiter, which held nothing for "s1", now holds the
    timestamp 1000. *)
Lemma rejected_send_consumes_slot :
  let w := run documentedReasons [ApiConnect online 0 "s1"] startup in
  let body := mkSendBody (Some "+1 555 010 0000") (Some "hello") in
  let r := send_route online 1000 "s1" body w in
  session_field isConnected "s1" w = Some false
  ∧ validateWhatsAppMessage body = None
  ∧ r.1 = Send500 NotConnected
  ∧ error_message NotConnected = "WhatsApp not connected. Please scan QR code first."
  ∧ RateLimiter.requests (whatsappLimiter w) !! "s1" = None
  ∧ RateLimiter.requests (whatsappLimiter r.2) !! "s1" = Some [1000].
Proof. vm_compute. repeat split. Qed.

(** C1 (as the code has it).  A send for a registered session that is not
    connected.  A body that the validation middleware refuses is answered
    400 with the middleware's error, and nothing changes: neither the
    limiter nor the service is reached.  A body that passes the validation
    first meets the limiter.  When the limiter admits it, the answer is the
    NotConnected error and the limiter has recorded the request: the list
    of the session key is its in-window timestamps followed by [now].  When
    the limiter rejects it, the answer is the rate-limit error and nothing
    changes. *)
Theorem send_on_disconnected env now sessionId body w r s :
  get_session sessionId w = Some (r, s) →
  isConnected s = false →
  let valid := RateLimiter.validRequests now sessionId (whatsappLimiter w) in
  let res := send_route env now sessionId body w in
  (∀ error, validateWhatsAppMessage body = Some error → res = (Send400 error, w))
  ∧ (validateWhatsAppMessage body = None →
     (Z.of_nat (length valid) < RateLimiter.maxRequests (whatsappLimiter w) →
        res.1 = Send500 NotConnected
        ∧ RateLimiter.requests (whatsappLimiter res.2) !! sessionId = Some (valid ++ [now])
        ∧ activeSessions res.2 = activeSessions w ∧ heap res.2 = heap w)
     ∧ (RateLimiter.maxRequests (whatsappLimiter w) <= Z.of_nat (length valid) →
        (∃ e, res.1 = Send429 e) ∧ res.2 = w)).
Proof.
  intros Hget Hconn valid res. subst valid res. unfold send_route. split.
  { by intros error ->. }
  intros ->. split; intros Hcount.
  - rewrite checkLimit_allows by done.
    unfold sendWhatsAppMessage.
    replace (get_session sessionId (set_whatsappLimiter _ w)) with (get_session sessionId w)
      by done.
    rewrite Hget, Hconn. cbn. by rewrite lookup_insert_eq.
  - rewrite checkLimit_rejects by done. cbn. eauto.
Qed.

Lemma send_on_disconnected_witness :
  let w := run documentedReasons [ApiConnect online 0 "s1"] startup in
  let body := mkSendBody (Some "+1 555 010 0000") (Some "hello") in
  let res := send_route online 1000 "s1" body w in
  res.1 = Send500 NotConnected
  ∧ RateLimiter.requests (whatsappLimiter res.2) !! "s1" = Some [1000].
Proof.
  intros w body res.
  destruct (send_on_disconnected online 1000 "s1" body w 0%nat
              (set_socket (Some 0%nat) newSessionData)) as [_ Hvalid].
  - vm_compute. reflexivity.
  - reflexivity.
  - destruct Hvalid as [Hadmit _]; [vm_compute; reflexivity|].
    destruct Hadmit as (H1 & H2 & _).
    + vm_compute. reflexivity.
    + split; [exact H1|]. etrans; [exact H2|]. vm_compute. reflexivity.
Defined.

(** C6, as stated, fails at the boundary.  The pairing string of "s1" was
    generated at 1000 ms; a query at 181000 ms, exactly 180 s later, still
    returns it with status [qr_pending]. *)
Lemma qr_at_180s_not_expired :
  let w := run documentedReasons
             [ApiConnect online 0 "s1"; SocketEmits 1000 0%nat (qr_event "2@abc")] startup in
  session_field qrGeneratedAt "s1" w = Some (Some 1000)
  ∧ qr_route (1000 + 180000) "s1" w
    = Qr200 (mkQrBody (Some "2@abc") "qr_pending" false None None (Some 1000)).
Proof. vm_compute. repeat split. Qed.

(** C6 (as the code has it).  For a registered session holding a QR code
    generated at [t]: a query later than [t + 180000] ms answers
    [qrCode: null, status: 'qr_expired']; a query at or before
    [t + 180000] ms answers the stored code with the stored status. *)
Theorem qr_route_expiry now sessionId w r s t :
  get_session sessionId w = Some (r, s) →
  truthy (qrCode s) = true →
  qrGeneratedAt s = Some t →
  (t + 180000 < now →
     qr_route now sessionId w
     = Qr200 (mkQrBody None "qr_expired" (isConnected s) None
                       (Some "QR code expired. Please reconnect.") (Some t)))
  ∧ (now <= t + 180000 →
     qr_route now sessionId w
     = Qr200 (mkQrBody (qrCode s) (status s) (isConnected s) (phoneNumber s) None (Some t))).
Proof.
  intros Hget Hqr Hgen. unfold qr_route, getQRCode. rewrite Hget.
  cbn [qd_qrCode qd_qrGeneratedAt qd_status qd_isConnected qd_phoneNumber].
  rewrite Hqr, Hgen. unfold isExpired. split; intros Hage.
  - by rewrite (proj2 (Z.ltb_lt _ _)) by lia.
  - by rewrite (proj2 (Z.ltb_ge _ _)) by lia.
Qed.

Lemma qr_route_expiry_witness :
  let w := run documentedReasons
             [ApiConnect online 0 "s1"; SocketEmits 1000 0%nat (qr_event "2@abc")] startup in
  qr_route 181001 "s1" w
  = Qr200 (mkQrBody None "qr_expired" false None
                    (Some "QR code expired. Please reconnect.") (Some 1000))
  ∧ qr_route 181000 "s1" w
    = Qr200 (mkQrBody (Some "2@abc") "qr_pending" false None None (Some 1000)).
Proof.
  intros w.
  destruct (qr_route_expiry 181001 "s1" w 0%nat
              (mkSession (Some 0%nat) false (Some "2@abc") (Some 1000) false None
                         "qr_pending" None) 1000) as [Hexp _];
    [vm_compute; reflexivity | reflexivity | reflexivity |].
  destruct (qr_route_expiry 181000 "s1" w 0%nat
              (mkSession (Some 0%nat) false (Some "2@abc") (Some 1000) false None
                         "qr_pending" None) 1000) as [_ Hval];
    [vm_compute; reflexivity | reflexivity | reflexivity |].
  split; [apply Hexp; lia | apply Hval; lia].
Defined.

(** ** initializeWhatsApp *)

(** [reusable] in terms of the fields: connected, or holding an unscanned QR
    code that is at most 180 s old. *)
Lemma reusable_spec now s :
  reusable now s = true
  ↔ isConnected s = true
    ∨ (truthy (qrCode s) = true ∧ qrScanned s = false
       ∧ ∃ t, qrGeneratedAt s = Some t ∧ now - t <= 180000).
Proof.
  unfold reusable, isExpired.
  destruct (isConnected s); [by split; [left|]|].
  destruct (qrGeneratedAt s) as [t|].
  2:{ split; [done|]. intros [?|(_ & _ & t' & ? & _)]; done. }
  destruct (truthy (qrCode s)); cbn.
  2:{ split; [done|]. intros [?|(? & _)]; done. }
  destruct (qrScanned s); cbn.
  { split; [done|]. intros [?|(_ & ? & _)]; done. }
  destruct (Z.ltb_spec 180000 (now - t)); cbn.
  - split; [done|]. intros [?|(_ & _ & t' & [= <-] & ?)]; [done|lia].
  - split; [|done]. intros _. right. eauto.
Qed.

Lemma get_session_teardown sessionId s w : get_session sessionId (teardown sessionId s w) = None.
Proof.
  unfold get_session, teardown. cbn. by rewrite lookup_delete_eq.
Qed.

(** C8. [initializeWhatsApp] on a session id that is registered.  If the
    record is connected, or holds an unscanned QR code at most 180 s old,
    the call returns that record and changes nothing (no socket is created).
    Otherwise the socket of the record, if any, is ended and the record is
    dropped from the registry, and the call then does what it does for an
    unregistered id: a fresh attempt. *)
Theorem initializeWhatsApp_reentrant env now sessionId w r s :
  get_session sessionId w = Some (r, s) →
  let usable :=
    isConnected s = true
    ∨ (truthy (qrCode s) = true ∧ qrScanned s = false
       ∧ ∃ t, qrGeneratedAt s = Some t ∧ now - t <= 180000) in
  (usable → initializeWhatsApp env now sessionId w = (inr r, w))
  ∧ (¬ usable →
     let w0 := teardown sessionId s w in
     initializeWhatsApp env now sessionId w = fresh_attempt env sessionId w0
     ∧ initializeWhatsApp env now sessionId w0 = fresh_attempt env sessionId w0
     ∧ activeSessions w0 = delete sessionId (activeSessions w)
     ∧ heap w0 = heap w
     ∧ sockets w0
       = match socket s with
         | Some k =>
             alter (λ sk, mkSocket (sock_session sk) (sock_data sk) sock_ended) k (sockets w)
         | None => sockets w
         end).
Proof.
  intros Hget usable. subst usable. split; intros Hu.
  - apply reusable_spec in Hu. unfold initializeWhatsApp. by rewrite Hget, Hu.
  - assert (Hr : reusable now s = false).
    { destruct (reusable now s) eqn:E; [|done]. by apply reusable_spec in E. }
    cbn zeta. split; [|split].
    + unfold initializeWhatsApp. by rewrite Hget, Hr.
    + unfold initializeWhatsApp. by rewrite get_session_teardown.
    + unfold teardown. by destruct (socket s).
Qed.

(** "s1" holds a QR code generated at 1000 ms: a second connect at 60 s
    returns the record and leaves the process as it is; a connect at 200 s
    ends socket 0 and registers a new record with a new socket. *)
Lemma initializeWhatsApp_reentrant_witness :
  let w := run documentedReasons
             [ApiConnect online 0 "s1"; SocketEmits 1000 0%nat (qr_event "2@abc")] startup in
  initializeWhatsApp online 60000 "s1" w = (inr 0%nat, w)
  ∧ (initializeWhatsApp online 200000 "s1" w).1 = inr 1%nat
  ∧ sock_state <$> sockets (initializeWhatsApp online 200000 "s1" w).2 !! 0%nat
    = Some sock_ended
  ∧ sock_state <$> sockets (initializeWhatsApp online 200000 "s1" w).2 !! 1%nat
    = Some sock_live.
Proof.
  intros w.
  set (s := mkSession (Some 0%nat) false (Some "2@abc") (Some 1000) false None
                      "qr_pending" None).
  split.
  - apply (proj1 (initializeWhatsApp_reentrant online 60000 "s1" w 0%nat s
                    ltac:(vm_compute; reflexivity))).
    right. split; [reflexivity|]. split; [reflexivity|]. exists 1000. split; [reflexivity|lia].
  - destruct (proj2 (initializeWhatsApp_reentrant online 200000 "s1" w 0%nat s
                       ltac:(vm_compute; reflexivity))) as (H1 & _).
    + intros [H|(_ & _ & t & [= <-] & H)]; [discriminate H|lia].
    + rewrite H1. vm_compute. repeat split.
Defined.

(** ** At most one reconnect timer per record *)

Section ReconnectTimers.

Variable DR : DisconnectReason.

Lemma timer_id_inj (l : list Timer) tm1 tm2 :
  NoDup (timer_id <$> l) → tm1 ∈ l → tm2 ∈ l → timer_id tm1 = timer_id tm2 → tm1 = tm2.
Proof.
  induction l as [|x l IH]; intros Hnd H1 H2 Heq.
  - by apply elem_of_nil in H1.
  - rewrite fmap_cons in Hnd. apply NoDup_cons in Hnd as [Hx Hnd].
    apply elem_of_cons in H1 as [->|H1]; apply elem_of_cons in H2 as [->|H2].
    + done.
    + exfalso. apply Hx. rewrite Heq. by apply list_elem_of_fmap_2.
    + exfalso. apply Hx. rewrite <- Heq. by apply list_elem_of_fmap_2.
    + by apply IH.
Qed.

Lemma NoDup_fmap_cancel t (l : list Timer) :
  NoDup (timer_id <$> l) → NoDup (timer_id <$> cancel t l).
Proof.
  unfold cancel. induction l as [|x l IH]; [done|].
  rewrite fmap_cons. intros [Hx Hnd]%NoDup_cons.
  destruct (decide (timer_id x ≠ t)).
  - rewrite filter_cons_True by done. rewrite fmap_cons. apply NoDup_cons.
    split; [|by apply IH].
    intros (y & Hy & Hin)%list_elem_of_fmap. apply list_elem_of_filter in Hin as [_ Hin].
    apply Hx. rewrite Hy. by apply list_elem_of_fmap_2.
  - rewrite filter_cons_False by done. by apply IH.
Qed.

Lemma elem_of_cancel t (l : list Timer) tm :
  tm ∈ cancel t l ↔ timer_id tm ≠ t ∧ tm ∈ l.
Proof. unfold cancel. by rewrite list_elem_of_filter. Qed.

Lemma alter_insert_Some {A} (f : A → A) (m : gmap nat A) i x :
  m !! i = Some x → alter f i m = <[i := f x]> m.
Proof.
  intros H. apply map_eq. intros j. destruct (decide (i = j)) as [<-|Hne].
  - by rewrite lookup_alter_eq, lookup_insert_eq, H.
  - by rewrite lookup_alter_ne, lookup_insert_ne.
Qed.

(** Parts of the process the invariant does not read. *)
Lemma timers_wf_ext w w' :
  timers w' = timers w → nextTimer w' = nextTimer w →
  heap w' = heap w → nextRef w' = nextRef w →
  timers_wf w → timers_wf w'.
Proof.
  intros Ht Hn Hh Hr [H1 H2 H3 H4 H5].
  split; rewrite ?Ht, ?Hn, ?Hh, ?Hr; done.
Qed.

(** The step touches nothing the invariant reads. *)
Local Ltac same_timers Hw := eapply timers_wf_ext; [..|exact Hw]; done.

(** An object is replaced by one holding the same handle. *)
Lemma timers_wf_same_field w r s s' :
  heap w !! r = Some s →
  reconnectTimer s' = reconnectTimer s →
  timers_wf w → timers_wf (set_heap (<[r := s']> (heap w)) w).
Proof.
  intros Hs Hf [H1 H2 H3 H4 H5]. split; cbn; try done.
  - intros tm Htm. destruct (H3 tm Htm) as (s0 & Hs0 & Hf0).
    destruct (decide (r = timer_data tm)) as [->|Hne].
    + rewrite lookup_insert_eq. exists s'. split; [done|]. congruence.
    + rewrite lookup_insert_ne by done. eauto.
  - intros r0 s0 t. destruct (decide (r = r0)) as [<-|Hne].
    + rewrite lookup_insert_eq. intros [= <-] Ht. apply (H4 r s t); congruence.
    + rewrite lookup_insert_ne by done. apply H4.
  - intros r0. destruct (decide (r = r0)) as [<-|Hne].
    + intros _. apply H5. by rewrite Hs.
    + rewrite lookup_insert_ne by done. apply H5.
Qed.

(** The timer an object holds is cancelled (or fires) and the object drops
    the handle. *)
Lemma timers_wf_cancel w r s s' t :
  heap w !! r = Some s →
  reconnectTimer s = Some t →
  reconnectTimer s' = None →
  timers_wf w →
  timers_wf (set_timers (cancel t (timers w)) (set_heap (<[r := s']> (heap w)) w)).
Proof.
  intros Hs Hf Hf' [H1 H2 H3 H4 H5]. split; cbn.
  - by apply NoDup_fmap_cancel.
  - intros tm [_ Htm]%elem_of_cancel. by apply H2.
  - intros tm [Hid Htm]%elem_of_cancel. destruct (H3 tm Htm) as (s0 & Hs0 & Hf0).
    destruct (decide (r = timer_data tm)) as [->|Hne].
    + congruence.
    + rewrite lookup_insert_ne by done. eauto.
  - intros r0 s0 t0. destruct (decide (r = r0)) as [<-|Hne].
    + rewrite lookup_insert_eq. intros [= <-]. congruence.
    + rewrite lookup_insert_ne by done. intros Hs0 Hf0.
      destruct (H4 r0 s0 t0 Hs0 Hf0) as (tm & Htm & Hid & Hdata).
      exists tm. split; [|done]. apply elem_of_cancel. split; [|done].
      intros Heq. destruct (H4 r s t Hs Hf) as (tm' & Htm' & Hid' & Hdata').
      assert (tm = tm') by (eapply timer_id_inj; [exact H1|done..|congruence]).
      congruence.
  - intros r0. destruct (decide (r = r0)) as [<-|Hne].
    + intros _. apply H5. by rewrite Hs.
    + rewrite lookup_insert_ne by done. apply H5.
Qed.

(** An object that holds no handle sets a timer and stores the handle. *)
Lemma timers_wf_set w sessionId r s s' delay :
  heap w !! r = Some s →
  reconnectTimer s = None →
  reconnectTimer s' = Some (nextTimer w) →
  timers_wf w →
  timers_wf (set_nextTimer (S (nextTimer w))
               (set_timers (timers w ++ [mkTimer (nextTimer w) delay sessionId r])
                  (set_heap (<[r := s']> (heap w)) w))).
Proof.
  intros Hs Hf Hf' [H1 H2 H3 H4 H5]. split; cbn.
  - rewrite fmap_app. apply NoDup_app. split; [done|]. split; [|apply NoDup_singleton].
    intros x (tm & -> & Htm)%list_elem_of_fmap [= Heq]%list_elem_of_singleton.
    apply H2 in Htm. lia.
  - intros tm [Htm|Htm%list_elem_of_singleton]%elem_of_app.
    + apply H2 in Htm. lia.
    + subst tm. cbn. lia.
  - intros tm [Htm|Htm%list_elem_of_singleton]%elem_of_app.
    + destruct (H3 tm Htm) as (s0 & Hs0 & Hf0).
      destruct (decide (r = timer_data tm)) as [->|Hne]; [congruence|].
      rewrite lookup_insert_ne by done. eauto.
    + subst tm. cbn. rewrite lookup_insert_eq. eauto.
  - intros r0 s0 t0. destruct (decide (r = r0)) as [<-|Hne].
    + rewrite lookup_insert_eq. intros [= <-] Ht0.
      exists (mkTimer (nextTimer w) delay sessionId r). split; [|split; [cbn; congruence|done]].
      apply elem_of_app. right. by apply list_elem_of_singleton.
    + rewrite lookup_insert_ne by done. intros Hs0 Hf0.
      destruct (H4 r0 s0 t0 Hs0 Hf0) as (tm & Htm & Hid & Hdata).
      exists tm. split; [|done]. apply elem_of_app. by left.
  - intros r0. destruct (decide (r = r0)) as [<-|Hne].
    + intros _. apply H5. by rewrite Hs.
    + rewrite lookup_insert_ne by done. apply H5.
Qed.

(** Effects that do not reach the timer queue. *)
Lemma timers_wf_other_effects sessionId r es : ∀ w,
  Forall (λ e, ¬ timer_effect e) es →
  timers_wf w → timers_wf (apply_effects sessionId r es w).
Proof.
  induction es as [|e es IH]; intros w Hes Hw; [done|].
  apply Forall_cons in Hes as [He Hes]. cbn. apply IH; [done|].
  destruct e; cbn in He; try done;
    same_timers Hw.
Qed.

(** A handler call that changes the field as [timer_change] allows keeps
    the invariant. *)
Lemma timers_wf_handler w sessionId r s s' es :
  heap w !! r = Some s →
  timer_change (nextTimer w) s s' es →
  timers_wf w →
  timers_wf (apply_effects sessionId r es (set_heap (<[r := s']> (heap w)) w)).
Proof.
  intros Hs Hch Hw. destruct Hch as [es Hf Hes|t es Hf Hf' Hes|delay Hf Hf'].
  - apply timers_wf_other_effects; [done|]. by eapply timers_wf_same_field.
  - cbn. apply timers_wf_other_effects; [done|]. by eapply timers_wf_cancel.
  - cbn. by eapply timers_wf_set.
Qed.

Lemma timer_change_clear fresh s :
  timer_change fresh s (clear_reconnectTimer s).1 (clear_reconnectTimer s).2.
Proof.
  unfold clear_reconnectTimer. destruct (reconnectTimer s) as [t|] eqn:Ht; cbn.
  - by eapply tc_clear.
  - by apply tc_keep.
Qed.

Lemma timer_change_schedule fresh delay s0 s :
  reconnectTimer s = reconnectTimer s0 →
  timer_change fresh s0 (schedule_reconnect fresh delay s).1
               (schedule_reconnect fresh delay s).2.
Proof.
  intros Hf. unfold schedule_reconnect. destruct (reconnectTimer s) as [t|] eqn:Ht; cbn.
  - apply tc_keep; [congruence|done].
  - by apply tc_set.
Qed.

(** Every call of one of the two listeners changes [reconnectTimer] as
    [timer_change] allows. *)
Lemma timer_change_handle now fresh ev s :
  timer_change fresh s (handle DR now fresh ev s).1 (handle DR now fresh ev s).2.
Proof.
  destruct ev as [upd user_id|]; cbn [handle].
  - unfold connection_update.
    pose proof (on_qr_reconnectTimer now upd s) as Hq.
    set (s1 := on_qr now upd s) in *.
    destruct (connection upd) as [[| |]|].
    + unfold on_open, clear_reconnectTimer.
      destruct (reconnectTimer s1) as [t|] eqn:Ht; cbn.
      * eapply tc_clear; [congruence|done..].
      * apply tc_keep; [cbn; congruence|done].
    + unfold on_close.
      destruct (code_is (statusCode upd) (loggedOut DR)).
      { unfold clear_reconnectTimer. cbn [reconnectTimer set_status set_isConnected].
        destruct (reconnectTimer s1) as [t|] eqn:Ht; cbn.
        - eapply tc_clear; [congruence|done|].
          repeat (apply Forall_cons; split; [by intros []|]). done.
        - apply tc_keep; [cbn; congruence|].
          repeat (apply Forall_cons; split; [by intros []|]). done. }
      destruct (recoverable DR (statusCode upd)).
      2:{ apply tc_keep; [cbn; congruence|done]. }
      unfold on_recoverable. cbn [qrScanned qrCode qrGeneratedAt set_isConnected set_status].
      destruct (qrScanned s1); [by apply timer_change_schedule|].
      destruct (truthy (qrCode s1)); [|by apply timer_change_schedule].
      destruct (qrGeneratedAt s1) as [g|]; [destruct (isExpired now g)|].
      * by apply timer_change_schedule.
      * apply tc_keep; [cbn; congruence|done].
      * apply tc_keep; [cbn; congruence|done].
    + apply tc_keep; [cbn; congruence|done].
    + apply tc_keep; [cbn; congruence|done].
  - unfold creds_update. cbn [fst snd]. apply tc_keep.
    + by destruct (truthy (qrCode s)).
    + apply Forall_singleton. by intros [].
Qed.

Lemma timers_wf_deliver now k ev w : timers_wf w → timers_wf (deliver DR now k ev w).
Proof.
  intros Hw. unfold deliver.
  destruct (sockets w !! k) as [sk|]; [|done].
  destruct (heap w !! sock_data sk) as [s|] eqn:Hs; [|done].
  pose proof (timer_change_handle now (nextTimer w) ev s) as Hch.
  destruct (handle DR now (nextTimer w) ev s) as [s' es].
  by eapply timers_wf_handler.
Qed.

Lemma timers_wf_fresh_attempt env sessionId w :
  timers_wf w → timers_wf (fresh_attempt env sessionId w).2.
Proof.
  intros Hw.
  assert (Hw1 : timers_wf (prepare_auth_dir sessionId w)).
  { unfold prepare_auth_dir. destruct (authSessions w !! sessionId) as [[]|]; [done|..];
      same_timers Hw. }
  unfold fresh_attempt.
  destruct (authStateLoads env); [|done].
  destruct (versionFetched env); [|done].
  destruct (whatsappReachable env); [|done].
  destruct (socketCreated env); [|done].
  cbn [negb snd]. set (w1 := prepare_auth_dir sessionId w) in *.
  destruct Hw1 as [H1 H2 H3 H4 H5]. split; cbn; try done.
  - intros tm Htm. destruct (H3 tm Htm) as (s0 & Hs0 & Hf0).
    assert (timer_data tm < nextRef w1)%nat by (apply H5; by rewrite Hs0).
    rewrite lookup_insert_ne by lia. eauto.
  - intros r s t. destruct (decide (nextRef w1 = r)) as [<-|Hne].
    + rewrite lookup_insert_eq. by intros [= <-].
    + rewrite lookup_insert_ne by done. apply H4.
  - intros r. destruct (decide (nextRef w1 = r)) as [<-|Hne]; [lia|].
    rewrite lookup_insert_ne by done. intros Hr%H5. lia.
Qed.

Lemma timers_wf_teardown sessionId s w : timers_wf w → timers_wf (teardown sessionId s w).
Proof.
  intros Hw. eapply timers_wf_ext; [..|exact Hw]; unfold teardown; by destruct (socket s).
Qed.

Lemma timers_wf_initializeWhatsApp env now sessionId w :
  timers_wf w → timers_wf (initializeWhatsApp env now sessionId w).2.
Proof.
  intros Hw. unfold initializeWhatsApp.
  destruct (get_session sessionId w) as [[r s]|].
  - destruct (reusable now s); [done|].
    by apply timers_wf_fresh_attempt, timers_wf_teardown.
  - by apply timers_wf_fresh_attempt.
Qed.

Lemma timers_wf_update_status r v w :
  timers_wf w → timers_wf (update_data r (set_status v) w).
Proof.
  intros Hw. unfold update_data.
  destruct (heap w !! r) as [s|] eqn:Hs.
  - rewrite (alter_insert_Some _ _ _ _ Hs). by eapply timers_wf_same_field.
  - replace (alter (set_status v) r (heap w)) with (heap w); [by destruct w|].
    apply map_eq. intros j. destruct (decide (r = j)) as [<-|Hne].
    + by rewrite lookup_alter_eq, Hs.
    + by rewrite lookup_alter_ne.
Qed.

Lemma timers_wf_fire_timer env now t w : timers_wf w → timers_wf (fire_timer env now t w).
Proof.
  intros Hw. unfold fire_timer.
  destruct (list_find _ (timers w)) as [[i tm]|] eqn:Hfind; [|done].
  apply list_find_Some in Hfind as (Hi & Hid & _).
  assert (Htm : tm ∈ timers w) by (eapply list_elem_of_lookup_2; exact Hi).
  destruct (wf_owner w Hw tm Htm) as (s & Hs & Hf).
  set (w2 := update_data _ _ _).
  assert (Hw2 : timers_wf w2).
  { subst w2. unfold update_data. cbn [heap set_timers].
    rewrite (alter_insert_Some _ _ _ _ Hs).
    pose proof (timers_wf_cancel w (timer_data tm) s (set_reconnectTimer None s) t Hs) as H.
    eapply timers_wf_ext; [..|apply H]; try done. congruence. }
  pose proof (timers_wf_initializeWhatsApp env now (timer_session tm) w2 Hw2) as Hw3.
  destruct (initializeWhatsApp env now (timer_session tm) w2) as [[e|r] w3]; cbn in Hw3.
  - by apply timers_wf_update_status.
  - done.
Qed.

Lemma timers_wf_disconnect_route sessionId w :
  timers_wf w → timers_wf (disconnect_route sessionId w).
Proof.
  intros Hw. unfold disconnect_route.
  destruct (get_session sessionId w) as [[r s]|] eqn:Hget; [|done].
  assert (Hs : heap w !! r = Some s).
  { unfold get_session in Hget. destruct (activeSessions w !! sessionId) as [r'|]; [|done].
    cbn in Hget. destruct (heap w !! r') as [s'|] eqn:E; [|done]. cbn in Hget. congruence. }
  pose proof (timer_change_clear (nextTimer w) s) as Hch.
  destruct (clear_reconnectTimer s) as [s1 es]. cbn [fst snd] in Hch.
  pose proof (timers_wf_handler w sessionId r s s1 es Hs Hch Hw) as Hw1.
  eapply timers_wf_ext; [..|exact Hw1]; by destruct (socket s1).
Qed.

Lemma timers_wf_send_route env now sessionId body w :
  timers_wf w → timers_wf (send_route env now sessionId body w).2.
Proof.
  intros Hw. unfold send_route.
  destruct (validateWhatsAppMessage body); [done|].
  destruct (RateLimiter.checkLimit _ _ _) as [[e|[]] rl]; [done|].
  destruct (sendWhatsAppMessage _ _ _ _ _); same_timers Hw.
Qed.

Create HintDb timers.

#[local] Hint Resolve timers_wf_initializeWhatsApp timers_wf_send_route
  timers_wf_disconnect_route timers_wf_deliver timers_wf_fire_timer : timers.

Lemma timers_wf_step a w : timers_wf w → timers_wf (step DR a w).
Proof.
  intros Hw. destruct a; cbn [step]; auto with timers.
Qed.

Lemma timers_wf_run acts : ∀ w, timers_wf w → timers_wf (run DR acts w).
Proof.
  induction acts as [|a acts IH]; intros w Hw; [done|].
  cbn. by apply IH, timers_wf_step.
Qed.

Lemma timers_wf_startup : timers_wf startup.
Proof.
  split; cbn.
  - apply NoDup_nil_2.
  - by intros tm ?%elem_of_nil.
  - by intros tm ?%elem_of_nil.
  - intros r s t. by rewrite lookup_empty.
  - intros r. rewrite lookup_empty. by intros [? ?].
Qed.

Lemma NoDup_all_equal {A} (l : list A) a :
  NoDup l → (∀ x, x ∈ l → x = a) → a ∈ l → l = [a].
Proof.
  intros Hnd Hall Ha. destruct l as [|x l]; [by apply elem_of_nil in Ha|].
  assert (x = a) as -> by (apply Hall; by left).
  apply NoDup_cons in Hnd as [Hx _].
  destruct l as [|y l]; [done|].
  exfalso. apply Hx. assert (y = a) as -> by (apply Hall; right; by left). by left.
Qed.

(** X9. The guards of the handlers, per record.  After any sequence of
    requests, socket events and timer firings since start-up, the pending
    reconnect timers of every [sessionData] object are exactly what its
    [reconnectTimer] field holds: none when the field is [null], the one
    timer with that handle otherwise.  So an object never has two timers
    outstanding, a fired or cancelled timer is out of the field, and a
    handler that runs while the field is set sets no timer. *)
Theorem one_reconnect_timer_per_record acts r s :
  heap (run DR acts startup) !! r = Some s →
  timer_id <$> timers_of r (run DR acts startup) = option_list (reconnectTimer s)
  ∧ (length (timers_of r (run DR acts startup)) <= 1)%nat
  ∧ ∀ now fresh ev delay,
      is_Some (reconnectTimer s) →
      SetTimeout fresh delay ∉ (handle DR now fresh ev s).2.
Proof.
  intros Hs. set (w := run DR acts startup) in *.
  assert (Hw : timers_wf w) by apply timers_wf_run, timers_wf_startup.
  assert (Hids : timer_id <$> timers_of r w = option_list (reconnectTimer s)).
  { unfold timers_of. destruct (reconnectTimer s) as [t|] eqn:Hf; cbn.
    - destruct (wf_field w Hw r s t Hs Hf) as (tm & Htm & Hid & Hdata).
      rewrite (NoDup_all_equal (filter (λ tm, timer_data tm = r) (timers w)) tm).
      + cbn. by rewrite Hid.
      + apply NoDup_filter. eapply NoDup_fmap_1, wf_nodup, Hw.
      + intros x [Hx Hin]%list_elem_of_filter.
        destruct (wf_owner w Hw x Hin) as (s0 & Hs0 & Hf0).
        eapply timer_id_inj; [apply wf_nodup, Hw|done..|]. congruence.
      + by apply list_elem_of_filter.
    - replace (filter (λ tm, timer_data tm = r) (timers w)) with (@nil Timer); [done|].
      symmetry. apply filter_drop_all.
      apply Forall_forall. intros x Hin Hx.
      destruct (wf_owner w Hw x Hin) as (s0 & Hs0 & Hf0). congruence. }
  split; [done|]. split.
  - rewrite <- (length_fmap timer_id), Hids. destruct (reconnectTimer s); cbn; lia.
  - intros now fresh ev delay [t Ht] Hin.
    destruct (timer_change_handle now fresh ev s) as [es0 Hf Hes|t' es0 Hf Hf' Hes|d Hf Hf'].
    + rewrite Forall_forall in Hes. by apply (Hes _ Hin).
    + apply elem_of_cons in Hin as [Hin|Hin]; [done|].
      rewrite Forall_forall in Hes. by apply (Hes _ Hin).
    + congruence.
Qed.

End ReconnectTimers.

(** A second close event on the same socket sets no second timer. *)
Lemma one_reconnect_timer_per_record_witness :
  let acts := [ApiConnect online 0 "s1"; SocketEmits 1000 0%nat (close_event 515);
               SocketEmits 1500 0%nat (close_event 428)] in
  timer_id <$> timers_of 0 (run documentedReasons acts startup) = [0%nat]
  ∧ (length (timers_of 0 (run documentedReasons acts startup)) <= 1)%nat.
Proof.
  intros acts.
  destruct (one_reconnect_timer_per_record documentedReasons acts 0%nat
              (mkSession (Some 0%nat) false None None false None "reconnecting" (Some 0%nat)))
    as (Hids & Hlen & _); [vm_compute; reflexivity|].
  split; [exact Hids|exact Hlen].
Defined.

(** C7 fails across a re-entrant connect.  "s1" closes with 515 at 1 s and
    a timer of 3 s is set; a second connect at 1.5 s ends the old socket
    and registers a new record without cancelling that timer; the new
    socket closes with 515 at 3 s and a second timer is set.  Two reconnect
    timers for "s1" are now pending, and the registered record knows only
    the second. *)
Lemma stale_timer_after_reconnect :
  let w := run documentedReasons
             [ApiConnect online 0 "s1"; SocketEmits 1000 0%nat (close_event 515);
              ApiConnect online 1500 "s1"; SocketEmits 3000 1%nat (close_event 515)]
             startup in
  timers_for "s1" w = [mkTimer 0 3000 "s1" 0; mkTimer 1 3000 "s1" 1]
  ∧ length (timers_for "s1" w) = 2%nat
  ∧ activeSessions w !! "s1" = Some 1%nat
  ∧ session_field reconnectTimer "s1" w = Some (Some 1%nat).
Proof. vm_compute. repeat split. Qed.

(** What the forgotten timer does when it fires at 4 s: the record that the
    second connect registered is still waiting for its pairing string, so
    its socket is ended and a third record replaces it. *)
Lemma stale_timer_ends_new_socket :
  let w := run documentedReasons
             [ApiConnect online 0 "s1"; SocketEmits 1000 0%nat (close_event 515);
              ApiConnect online 1500 "s1"] startup in
  let w' := step documentedReasons (TimerFires online 4000 0%nat) w in
  (activeSessions w !! "s1" = Some 1%nat
   ∧ session_field status "s1" w = Some "connecting"
   ∧ sock_state <$> sockets w !! 1%nat = Some sock_live
   ∧ timers_for "s1" w = [mkTimer 0 3000 "s1" 0])
  ∧ activeSessions w' !! "s1" = Some 2%nat
  ∧ sock_state <$> sockets w' !! 1%nat = Some sock_ended.
Proof. vm_compute. repeat split. Qed.

(** The sibling paths cancel the timer before they drop the record: the
    same second request as a disconnect leaves no timer behind. *)
Lemma disconnect_cancels_timer :
  let w := run documentedReasons
             [ApiConnect online 0 "s1"; SocketEmits 1000 0%nat (close_event 515);
              ApiDisconnect "s1"] startup in
  timers_for "s1" w = [] ∧ activeSessions w !! "s1" = None.
Proof. vm_compute. repeat split. Qed.

(** * Further properties *)

(** ** The rate limiter, beyond one key and one window *)

Section RateLimiterMore.
Import RateLimiter.

Lemma checkLimit_config now key rl :
  maxRequests (checkLimit now key rl).2 = maxRequests rl
  ∧ timeWindowMs (checkLimit now key rl).2 = timeWindowMs rl.
Proof. unfold checkLimit. by case_decide. Qed.

(** X1. A check for one identifier leaves what is recorded for every other
    identifier as it was, so the answer a later check for another
    identifier gets is the answer it would have got without it. *)
Theorem checkLimit_other_keys now now' key key' rl :
  key ≠ key' →
  requests (checkLimit now key rl).2 !! key' = requests rl !! key'
  ∧ (checkLimit now' key' (checkLimit now key rl).2).1 = (checkLimit now' key' rl).1.
Proof.
  intros Hne.
  assert (Hreq : requests (checkLimit now key rl).2 !! key' = requests rl !! key').
  { unfold checkLimit. case_decide; [done|]. cbn. by rewrite lookup_insert_ne. }
  split; [done|].
  destruct (checkLimit_config now key rl) as [Hm Ht].
  set (rl1 := (checkLimit now key rl).2) in *.
  assert (Hv : validRequests now' key' rl1 = validRequests now' key' rl).
  { unfold validRequests, userRequests. by rewrite Hreq, Ht. }
  unfold checkLimit. rewrite Hv, Hm, Ht. by case_decide.
Qed.

Lemma checkLimit_other_keys_witness :
  let rl := (checkAll (Z.of_nat <$> seq 0 30) "s1" whatsappLimiter).2 in
  (checkLimit 100 "s1" rl).1 = inl (RateLimitExceeded (Num 59900))
  ∧ (checkLimit 100 "s2" rl).1 = inr tt
  ∧ (checkLimit 200 "s2" (checkLimit 100 "s1" rl).2).1 = (checkLimit 200 "s2" rl).1.
Proof.
  intros rl. split; [vm_compute; reflexivity|]. split; [vm_compute; reflexivity|].
  exact (proj2 (checkLimit_other_keys 100 200 "s1" "s2" rl ltac:(discriminate))).
Defined.

Lemma checkLimit_length now key rl key' :
  0 <= maxRequests rl →
  Z.of_nat (length (userRequests key' rl)) <= maxRequests rl →
  Z.of_nat (length (userRequests key' (checkLimit now key rl).2)) <= maxRequests rl.
Proof.
  intros Hm Hlen. unfold checkLimit. case_decide as Hfull; [done|].
  unfold userRequests at 1. cbn.
  destruct (decide (key = key')) as [<-|Hne].
  - rewrite lookup_insert_eq. cbn. rewrite length_app. cbn. lia.
  - rewrite lookup_insert_ne by done. exact Hlen.
Qed.

(** X2. A limiter built by the constructor with [maxRequests >= 0] never
    holds more than [maxRequests] timestamps for an identifier, whatever
    identifiers are checked and at whatever clock readings. *)
Theorem checkMany_bounded (m window : Z) (calls : list (Z * string)) key :
  0 <= m →
  Z.of_nat (length (userRequests key (checkMany calls (create m window)))) <= m.
Proof.
  intros Hm.
  assert (Hgen : ∀ rl, maxRequests rl = m →
            Z.of_nat (length (userRequests key rl)) <= m →
            Z.of_nat (length (userRequests key (checkMany calls rl))) <= m).
  { induction calls as [|[now k] calls IH]; intros rl Hrl Hlen; [done|].
    cbn. apply IH.
    - by rewrite (proj1 (checkLimit_config now k rl)).
    - rewrite <- Hrl. apply checkLimit_length; rewrite Hrl; done. }
  apply Hgen; [done|]. unfold userRequests. cbn. rewrite lookup_empty. cbn. lia.
Qed.

Lemma checkMany_bounded_witness :
  Z.of_nat (length (userRequests "a"
              (checkMany [(0, "a"); (5, "b"); (10, "a"); (20, "a"); (2000, "a")]
                         (create 2 1000)))) <= 2.
Proof. apply (checkMany_bounded 2 1000). lia. Defined.

Lemma Math_min_elem (l : list Z) x :
  Math_min l = Num x → x ∈ l.
Proof.
  destruct l as [|y l]; [done|]. cbn. intros [= <-].
  induction l as [|z l IH]; cbn.
  - by left.
  - destruct (Z.min_spec z (foldr Z.min y l)) as [[_ ->]|[_ ->]].
    + right. by left.
    + apply elem_of_cons in IH as [->|IH]; [by left|]. right. by right.
Qed.

(** X3. With [maxRequests >= 1], the error of a rejected check carries a
    finite wait time that is strictly positive, and the number of seconds
    its message prints is the wait time rounded up, at least 1. *)
Theorem rejected_wait_positive now key rl e :
  1 <= maxRequests rl →
  (checkLimit now key rl).1 = inl e →
  ∃ w n, waitTime e = Num w ∧ 0 < w
    ∧ retryAfterSeconds e = Num n ∧ 1 <= n ∧ 1000 * (n - 1) < w <= 1000 * n.
Proof.
  intros Hm. unfold checkLimit. case_decide as Hfull; [|done]. cbn. intros [= <-].
  destruct (validRequests now key rl) as [|x l] eqn:Hv; [cbn in Hfull; lia|].
  pose proof (Math_min_elem (x :: l) (foldr Z.min x l) eq_refl) as Hin.
  rewrite <- Hv in Hin. unfold validRequests in Hin.
  apply list_elem_of_filter in Hin as [Hwin _].
  set (o := foldr Z.min x l) in *.
  exists (timeWindowMs rl - (now - o)), (- (- (timeWindowMs rl - (now - o)) / 1000)).
  unfold retryAfterSeconds. cbn. fold o.
  pose proof (Z.div_mod (- (timeWindowMs rl - (now - o))) 1000 ltac:(lia)) as Hdm.
  pose proof (Z.mod_pos_bound (- (timeWindowMs rl - (now - o))) 1000 ltac:(lia)) as Hb.
  repeat split; try done; lia.
Qed.

Lemma rejected_wait_positive_witness :
  let rl := mk 2 1000 {[ "k" := [500; 900] ]} in
  ∃ w n, waitTime (RateLimitExceeded (Num 300)) = Num w ∧ 0 < w
    ∧ retryAfterSeconds (RateLimitExceeded (Num 300)) = Num n ∧ 1 <= n
    ∧ 1000 * (n - 1) < w <= 1000 * n.
Proof.
  intros rl.
  apply (rejected_wait_positive 1200 "k" rl); [vm_compute; discriminate|].
  vm_compute. reflexivity.
Defined.

End RateLimiterMore.

(** ** Validation *)

Lemma string_app_cons c (a b : string) : String c a +:+ b = String c (a +:+ b).
Proof. reflexivity. Qed.

Lemma string_app_nil_l (b : string) : "" +:+ b = b.
Proof. reflexivity. Qed.

(** Unfold [+:+] on strings that start with a known character. *)
Ltac string_app := rewrite ?string_app_cons, ?string_app_nil_l in *.

Lemma string_app_nil_r (s : string) : s +:+ "" = s.
Proof. induction s as [|c s IH]; string_app; [done|]. by rewrite IH. Qed.

Lemma string_app_assoc (a b c : string) : (a +:+ b) +:+ c = a +:+ (b +:+ c).
Proof. induction a as [|x a IH]; string_app; [done|]. by rewrite IH. Qed.

Lemma string_app_eq_nil (a b : string) : a +:+ b = "" → a = "" ∧ b = "".
Proof. destruct a; string_app; [done|discriminate]. Qed.

Lemma all_chars_app p (a b : string) :
  all_chars p (a +:+ b) = all_chars p a && all_chars p b.
Proof.
  induction a as [|c a IH]; string_app; [done|]. cbn. rewrite IH. by destruct (p c).
Qed.

Lemma nullable_spec r : nullable r = true ↔ Matches r "".
Proof.
  induction r as [| |p|r1 IH1 r2 IH2|r1 IH1 r2 IH2|r IH]; cbn.
  - split; [done|]. inversion 1.
  - split; [constructor|done].
  - split; [done|]. inversion 1.
  - rewrite andb_true_iff, IH1, IH2. split.
    + intros [H1 H2]. exact (MCat _ _ "" "" H1 H2).
    + inversion 1 as [| |? ? s1 s2 H1 H2 Hr Hs| | | |]; subst.
      apply string_app_eq_nil in Hs as [-> ->]. done.
  - rewrite orb_true_iff, IH1, IH2. split.
    + intros [H|H]; [by apply MAltL|by apply MAltR].
    + inversion 1; subst; [by left|by right].
  - split; [constructor|done].
Qed.

(** A non-empty word of [r*] starts with a non-empty word of [r]. *)
Lemma Matches_star_cons r c s :
  Matches (RStar r) (String c s) →
  ∃ s1 s2, s = s1 +:+ s2 ∧ Matches r (String c s1) ∧ Matches (RStar r) s2.
Proof.
  intros H. remember (RStar r) as r' eqn:Hr. remember (String c s) as w eqn:Hw.
  revert s Hw.
  induction H as [|p0 c0 Hc0| | | | |r0 s1 s2 H1 _ H2 IH2]; try (by inversion Hr).
  intros s Hw. injection Hr as ->. destruct s1 as [|c1 s1]; string_app.
  - by apply IH2.
  - injection Hw as -> <-. eauto.
Qed.

Lemma derive_spec c r : ∀ s, Matches (derive c r) s ↔ Matches r (String c s).
Proof.
  induction r as [| |p|r1 IH1 r2 IH2|r1 IH1 r2 IH2|r IH]; intros s; cbn.
  - split; inversion 1.
  - split; inversion 1.
  - destruct (p c) eqn:Hp.
    + split.
      * inversion 1; subst. by constructor.
      * inversion 1; subst. constructor.
    + split; [inversion 1|]. inversion 1; subst. congruence.
  - assert (Hcat : Matches (RCat (derive c r1) r2) s
                   → Matches (RCat r1 r2) (String c s)).
    { inversion 1 as [| |? ? s1 s2 H1 H2| | | |]; subst.
      apply IH1 in H1. exact (MCat _ _ _ _ H1 H2). }
    assert (Hinv : Matches (RCat r1 r2) (String c s)
                   → Matches (RCat (derive c r1) r2) s
                     ∨ (Matches r1 "" ∧ Matches (derive c r2) s)).
    { inversion 1 as [| |? ? s1 s2 H1 H2 Hr Hs| | | |]; subst.
      destruct s1 as [|c1 s1]; string_app.
      - right. subst s2. split; [done|]. by apply IH2.
      - injection Hs as -> <-. left. apply MCat; [by apply IH1|done]. }
    destruct (nullable r1) eqn:Hn.
    + split.
      * inversion 1; subst; [by apply Hcat|].
        apply nullable_spec in Hn. apply (MCat _ _ "" _ Hn). by apply IH2.
      * intros [H|[_ H]]%Hinv; [by apply MAltL|by apply MAltR].
    + split; [done|].
      intros [H|[H _]]%Hinv; [done|]. apply nullable_spec in H. congruence.
  - split.
    + inversion 1; subst; [apply MAltL; by apply IH1|apply MAltR; by apply IH2].
    + inversion 1; subst; [apply MAltL; by apply IH1|apply MAltR; by apply IH2].
  - split.
    + inversion 1 as [| |? ? s1 s2 H1 H2| | | |]; subst.
      apply IH in H1. exact (MStarApp _ _ _ H1 H2).
    + intros (s1 & s2 & -> & H1 & H2)%Matches_star_cons.
      apply MCat; [by apply IH|done].
Qed.

(** The test by derivatives decides the words of the expression. *)
Lemma regex_test_spec s : ∀ r, regex_test r s = true ↔ Matches r s.
Proof.
  induction s as [|c s IH]; intros r; cbn.
  - apply nullable_spec.
  - rewrite IH. apply derive_spec.
Qed.

(** The words of [[p]+]: the non-empty strings of characters in [p]. *)
Lemma Matches_star_class p s : Matches (RStar (RClass p)) s ↔ all_chars p s = true.
Proof.
  split.
  - intros H. remember (RStar (RClass p)) as r eqn:Hr.
    induction H as [| | | | | |r0 s1 s2 H1 _ H2 IH2]; try (by inversion Hr).
    injection Hr as ->. inversion H1; subst. string_app. cbn. rewrite IH2 by done.
    by rewrite andb_true_r.
  - induction s as [|c s IH]; cbn; [constructor|].
    intros [Hc Hs]%andb_true_iff.
    exact (MStarApp _ (String c "") s (MClass p c Hc) (IH Hs)).
Qed.

Lemma Matches_plus_class p s :
  Matches (RPlus (RClass p)) s ↔ s ≠ "" ∧ all_chars p s = true.
Proof.
  unfold RPlus. split.
  - inversion 1 as [| |? ? s1 s2 H1 H2| | | |]; subst.
    inversion H1; subst. apply Matches_star_class in H2. string_app. cbn.
    split; [done|]. by rewrite H2, andb_true_r.
  - intros [Hne Hall]. destruct s as [|c s]; [done|]. cbn in Hall.
    apply andb_true_iff in Hall as [Hc Hs].
    apply (MCat _ _ (String c "") s); [by constructor|by apply Matches_star_class].
Qed.

Lemma Matches_just x s : Matches (RClass (just x)) s ↔ s = String x "".
Proof.
  split.
  - inversion 1 as [|? c Hc| | | | |]; subst. unfold just in Hc.
    apply Ascii.eqb_eq in Hc. by subst.
  - intros ->. constructor. unfold just. apply Ascii.eqb_refl.
Qed.

(** X4. [isValidEmail] accepts exactly the strings [local@domain.tld]
    whose three parts are non-empty and hold neither white space nor "@"
    (the domain and the last part may themselves hold dots). *)
Theorem isValidEmail_spec email :
  isValidEmail email = true
  ↔ ∃ loc domain tld,
      email = loc +:+ "@" +:+ domain +:+ "." +:+ tld
      ∧ loc ≠ "" ∧ domain ≠ "" ∧ tld ≠ ""
      ∧ all_chars not_space_at loc = true
      ∧ all_chars not_space_at domain = true
      ∧ all_chars not_space_at tld = true.
Proof.
  unfold isValidEmail. rewrite regex_test_spec. unfold emailRegex. split.
  - inversion 1 as [| |? ? a s1 Ha H1| | | |]; subst.
    inversion H1 as [| |? ? at_ s2 Hat H2| | | |]; subst.
    inversion H2 as [| |? ? b s3 Hb H3| | | |]; subst.
    inversion H3 as [| |? ? dot c Hdot Hc| | | |]; subst.
    apply Matches_plus_class in Ha as [? ?], Hb as [? ?], Hc as [? ?].
    apply Matches_just in Hat as ->, Hdot as ->.
    exists a, b, c. done.
  - intros (a & b & c & -> & Ha & Hb & Hc & Pa & Pb & Pc).
    apply MCat; [by apply Matches_plus_class|].
    apply (MCat _ _ "@"); [by apply Matches_just|].
    apply MCat; [by apply Matches_plus_class|].
    apply (MCat _ _ "."); [by apply Matches_just|].
    by apply Matches_plus_class.
Qed.

Lemma isValidEmail_examples :
  isValidEmail "user@example.com" = true
  ∧ isValidEmail "a@b.c.d" = true
  ∧ isValidEmail "a@b" = false
  ∧ isValidEmail "a@.b" = false
  ∧ isValidEmail "a@b." = false
  ∧ isValidEmail "a b@c.d" = false
  ∧ isValidEmail "a@@b.c" = false
  ∧ isValidEmail "" = false.
Proof. vm_compute. repeat split. Qed.

Lemma trimStart_nil s : trimStart s = "" ↔ all_chars js_space s = true.
Proof.
  induction s as [|c s IH]; cbn; [done|].
  destruct (js_space c); cbn; [done|]. split; discriminate.
Qed.

Lemma trimEnd_nil s : trimEnd s = "" ↔ all_chars js_space s = true.
Proof.
  induction s as [|c s IH]; cbn; [done|].
  destruct (js_space c); cbn.
  - destruct (String.eqb_spec (trimEnd s) "") as [He|Hne].
    + split; [intros _; by apply IH|done].
    + split; [discriminate|]. intros H%IH. done.
  - split; discriminate.
Qed.

Lemma all_chars_trimStart s :
  all_chars js_space (trimStart s) = all_chars js_space s.
Proof.
  induction s as [|c s IH]; cbn; [done|].
  destruct (js_space c) eqn:Hc; cbn; [done|]. by rewrite Hc.
Qed.

(** [s.trim() === ''] exactly when [s] is white space only. *)
Lemma trim_nil s : trim s = "" ↔ all_chars js_space s = true.
Proof. unfold trim. by rewrite trimEnd_nil, all_chars_trimStart. Qed.

Lemma blank_Some s : blank (Some s) = all_chars js_space s.
Proof.
  unfold blank, truthy. destruct s as [|c s]; [done|].
  rewrite negb_involutive. change (String.eqb (String c s) "") with false.
  rewrite orb_false_l.
  destruct (String.eqb_spec (trim (String c s)) "") as [He|Hne].
  - symmetry. by apply trim_nil.
  - symmetry. apply not_true_is_false. by intros ?%trim_nil.
Qed.

Lemma blank_false_truthy v : blank v = false → ∃ s, v = Some s ∧ truthy v = true.
Proof.
  destruct v as [s|]; [|done]. intros H. exists s. split; [done|].
  unfold blank in H. apply orb_false_iff in H as [H _]. by apply negb_false_iff in H.
Qed.

Lemma space_not_digit c : js_space c = true → is_digit c = false.
Proof. destruct c as [[] [] [] [] [] [] [] []]; done. Qed.

Lemma space_not_class c : js_space c = true → not_space_at c = false.
Proof. unfold not_space_at. by intros ->. Qed.

Lemma digitsOnly_spaces s : all_chars js_space s = true → digitsOnly s = "".
Proof.
  induction s as [|c s IH]; cbn; [done|].
  intros [Hc Hs]%andb_true_iff. rewrite (space_not_digit c Hc). by apply IH.
Qed.

Lemma isValidEmail_not_blank s : isValidEmail s = true → blank (Some s) = false.
Proof.
  unfold isValidEmail. rewrite regex_test_spec. unfold emailRegex.
  inversion 1 as [| |? ? a rest Hm _| | | |]; subst.
  apply Matches_plus_class in Hm as [Ha Pa].
  rewrite blank_Some. destruct a as [|x a]; [done|]. string_app. cbn in *.
  apply andb_true_iff in Pa as [Px _].
  destruct (js_space x) eqn:Hx; [|done]. by rewrite (space_not_class x Hx) in Px.
Qed.

(** X5. [validateEmail] lets through exactly the bodies whose [to] is a
    string that [isValidEmail] accepts, whose [subject] is a string that is
    not white space only, and one of whose [text] and [html] is such a
    string. *)
Theorem validateEmail_accepts body :
  validateEmail body = None
  ↔ (∃ recipient, f_to body = Some recipient ∧ isValidEmail recipient = true)
    ∧ blank (f_subject body) = false
    ∧ (blank (f_text body) = false ∨ blank (f_html body) = false).
Proof.
  unfold validateEmail. split.
  - destruct (blank (f_to body)) eqn:Hto; [done|].
    destruct (blank (f_subject body)) eqn:Hsub; [done|].
    apply blank_false_truthy in Hto as (recipient & Hto & _). rewrite Hto.
    change (default "" (Some recipient)) with recipient.
    destruct (isValidEmail recipient) eqn:Hv; [|done]. cbn [negb].
    destruct (blank (f_text body)), (blank (f_html body)); cbn [andb]; try done;
      intros _; (split; [by eauto|]); (split; [done|]); auto.
  - intros ((recipient & Hto & Hv) & Hsub & Hbody).
    rewrite Hto, (isValidEmail_not_blank _ Hv), Hsub.
    change (default "" (Some recipient)) with recipient. rewrite Hv. cbn [negb].
    destruct Hbody as [-> | ->]; [done|]. by rewrite andb_false_r.
Qed.

Lemma string_length_digitsOnly_le s : (String.length (digitsOnly s) <= String.length s)%nat.
Proof.
  induction s as [|c s IH]; cbn; [done|]. destruct (is_digit c); cbn; lia.
Qed.

Lemma all_chars_digitsOnly s : all_chars is_digit (digitsOnly s) = true.
Proof.
  induction s as [|c s IH]; cbn; [done|].
  destruct (is_digit c) eqn:Hc; cbn; [by rewrite Hc|done].
Qed.

Lemma validateWhatsAppMessage_passed body :
  validateWhatsAppMessage body = None →
  ∃ phone, body_phoneNumber body = Some phone
    ∧ (10 <= String.length (digitsOnly phone) <= 15)%nat
    ∧ blank (body_message body) = false.
Proof.
  unfold validateWhatsAppMessage.
  destruct (blank (body_phoneNumber body)) eqn:Hp; [done|].
  destruct (blank (body_message body)) eqn:Hm; [done|].
  apply blank_false_truthy in Hp as (phone & Hp & _). rewrite Hp.
  change (default "" (Some phone)) with phone. cbn zeta.
  destruct (Nat.ltb_spec (String.length (digitsOnly phone)) 10); [done|].
  destruct (Nat.ltb_spec 15 (String.length (digitsOnly phone))); [done|].
  intros _. exists phone. split; [done|]. split; [lia|done].
Qed.

Lemma validateWhatsAppMessage_passes body phone :
  body_phoneNumber body = Some phone →
  (10 <= String.length (digitsOnly phone) <= 15)%nat →
  blank (body_message body) = false →
  validateWhatsAppMessage body = None.
Proof.
  intros Hp Hlen Hm. unfold validateWhatsAppMessage.
  assert (Hb : blank (body_phoneNumber body) = false).
  { rewrite Hp, blank_Some. apply not_true_is_false. intros Hs.
    rewrite (digitsOnly_spaces _ Hs) in Hlen. cbn in Hlen. lia. }
  rewrite Hb, Hm, Hp. change (default "" (Some phone)) with phone. cbn zeta.
  destruct (Nat.ltb_spec (String.length (digitsOnly phone)) 10); [lia|].
  destruct (Nat.ltb_spec 15 (String.length (digitsOnly phone))); [lia|]. done.
Qed.

(** X6. [validateWhatsAppMessage] lets through exactly the bodies whose
    [phoneNumber] is a string with 10 to 15 decimal digits among its
    characters and whose [message] is a string that is not white space
    only. *)
Theorem validateWhatsAppMessage_accepts body :
  validateWhatsAppMessage body = None
  ↔ (∃ phone, body_phoneNumber body = Some phone
       ∧ (10 <= String.length (digitsOnly phone) <= 15)%nat)
    ∧ blank (body_message body) = false.
Proof.
  split.
  - intros (phone & Hp & Hlen & Hm)%validateWhatsAppMessage_passed. eauto.
  - intros ((phone & Hp & Hlen) & Hm). by eapply validateWhatsAppMessage_passes.
Qed.

(** ** The send endpoint: middleware, limiter and service together *)

Lemma get_session_set_whatsappLimiter sessionId rl w :
  get_session sessionId (set_whatsappLimiter rl w) = get_session sessionId w.
Proof. done. Qed.

Lemma checkLimit_error_state now key rl e :
  (RateLimiter.checkLimit now key rl).1 = inl e → (RateLimiter.checkLimit now key rl).2 = rl.
Proof. unfold RateLimiter.checkLimit. by case_decide. Qed.

(** X7. [POST /send/:sessionId] answers 200 exactly when the body passes
    the validation, the limiter admits the session, the session is
    registered, connected and has a socket, and [socket.sendMessage]
    resolves; the answer then names the message id of the transport, the
    phone number as it was given, and as [jid] its 10 to 15 digits followed
    by "@s.whatsapp.net". *)
Theorem send_route_delivers env now sessionId body w result :
  (send_route env now sessionId body w).1 = Send200 result
  ↔ ∃ phone r s k id,
      body_phoneNumber body = Some phone
      ∧ (10 <= String.length (digitsOnly phone) <= 15)%nat
      ∧ blank (body_message body) = false
      ∧ Z.of_nat (length (RateLimiter.validRequests now sessionId (whatsappLimiter w)))
        < RateLimiter.maxRequests (whatsappLimiter w)
      ∧ get_session sessionId w = Some (r, s)
      ∧ isConnected s = true
      ∧ socket s = Some k
      ∧ sendOutcome env = inr id
      ∧ result = mkSendResult id phone (digitsOnly phone +:+ "@s.whatsapp.net").
Proof.
  unfold send_route. split.
  - destruct (validateWhatsAppMessage body) eqn:Hval; [done|].
    apply validateWhatsAppMessage_passed in Hval as (phone & Hp & Hlen & Hm).
    rewrite Hp. change (default "" (Some phone)) with phone. cbn zeta.
    destruct (decide (RateLimiter.maxRequests (whatsappLimiter w)
                      <= Z.of_nat (length (RateLimiter.validRequests now sessionId
                                             (whatsappLimiter w))))) as [Hfull|Hfree].
    { by rewrite checkLimit_rejects. }
    rewrite checkLimit_allows by lia.
    unfold sendWhatsAppMessage. rewrite get_session_set_whatsappLimiter.
    destruct (get_session sessionId w) as [[r s]|] eqn:Hget; [|done].
    destruct (isConnected s) eqn:Hc; [|done]. cbn [negb].
    destruct (socket s) as [k|] eqn:Hk; [|done].
    destruct (sendOutcome env) as [m|id] eqn:Hout; [done|].
    cbn. intros [= <-]. exists phone, r, s, k, id.
    repeat (split; [done || lia|]). done.
  - intros (phone & r & s & k & id & Hp & Hlen & Hm & Hfree & Hget & Hc & Hk & Hout & ->).
    rewrite (validateWhatsAppMessage_passes body phone) by done.
    rewrite Hp. change (default "" (Some phone)) with phone. cbn zeta.
    rewrite checkLimit_allows by done.
    unfold sendWhatsAppMessage. rewrite get_session_set_whatsappLimiter.
    by rewrite Hget, Hc, Hk, Hout.
Qed.

(** X8. Whatever it answers, [POST /send/:sessionId] changes nothing of the
    process but the limiter, and the limiter only when the body passed the
    validation: it is then the limiter after [checkLimit], which has
    recorded the request if it admitted it, also when the send then fails. *)
Theorem send_route_state env now sessionId body w :
  let w' := (send_route env now sessionId body w).2 in
  activeSessions w' = activeSessions w ∧ heap w' = heap w
  ∧ authSessions w' = authSessions w ∧ timers w' = timers w ∧ sockets w' = sockets w
  ∧ whatsappLimiter w'
    = match validateWhatsAppMessage body with
      | Some _ => whatsappLimiter w
      | None => (RateLimiter.checkLimit now sessionId (whatsappLimiter w)).2
      end.
Proof.
  unfold send_route. destruct (validateWhatsAppMessage body); [done|].
  cbn zeta.
  destruct (RateLimiter.checkLimit now sessionId (whatsappLimiter w)) as [[e|[]] rl] eqn:Hcl.
  - pose proof (checkLimit_error_state now sessionId (whatsappLimiter w) e) as H.
    rewrite Hcl in H. cbn in H. by rewrite H.
  - by destruct (sendWhatsAppMessage _ _ _ _ _).
Qed.

(** ** The QR route *)

(** X10. A non-empty QR code in the answer of [GET /qr/:sessionId] is the
    code stored in the registered record, answered with the stored status,
    and it is not older than 180 s at the time of the query. *)
Theorem qr_route_never_stale now sessionId w body :
  qr_route now sessionId w = Qr200 body →
  truthy (r_qrCode body) = true →
  ∃ r s, get_session sessionId w = Some (r, s)
    ∧ r_qrCode body = qrCode s
    ∧ r_status body = status s
    ∧ r_qrGeneratedAt body = qrGeneratedAt s
    ∧ ∀ t, qrGeneratedAt s = Some t → now - t <= 180000.
Proof.
  unfold qr_route, getQRCode.
  destruct (get_session sessionId w) as [[r s]|] eqn:Hget; [|done].
  cbn [qd_qrCode qd_qrGeneratedAt qd_status qd_isConnected qd_phoneNumber].
  destruct (truthy (qrCode s)) eqn:Hq.
  - destruct (qrGeneratedAt s) as [t|] eqn:Hg.
    + unfold isExpired. destruct (Z.ltb_spec 180000 (now - t)).
      * intros [= <-]. done.
      * intros [= <-] _. exists r, s. repeat (split; [done|]).
        intros t' Ht'. rewrite Hg in Ht'. injection Ht' as <-. lia.
    + intros [= <-] _. exists r, s. repeat (split; [done|]).
        intros t' Ht'. congruence.
  - intros [= <-]. cbn. by rewrite Hq.
Qed.

Lemma qr_route_never_stale_witness :
  let w := run documentedReasons
             [ApiConnect online 0 "s1"; SocketEmits 1000 0%nat (qr_event "2@abc")] startup in
  ∃ r s, get_session "s1" w = Some (r, s)
    ∧ Some "2@abc" = qrCode s
    ∧ "qr_pending" = status s
    ∧ Some 1000 = qrGeneratedAt s
    ∧ ∀ t, qrGeneratedAt s = Some t → 60000 - t <= 180000.
Proof.
  intros w.
  apply (qr_route_never_stale 60000 "s1" w
           (mkQrBody (Some "2@abc") "qr_pending" false None None (Some 1000)));
    vm_compute; reflexivity.
Defined.

(** ** The other branches of the connection.update listener *)

(** X11. A [connection: 'open'] event on the socket of a registered record:
    the record is connected with status [connected], holds no QR code and
    no timer handle, its phone number is the part of [socket.user.id]
    before the first colon, the timer it held is cancelled, and the status
    route reports it connected. *)
Theorem open_connects DR now k user_id upd w sk s :
  sockets w !! k = Some sk →
  heap w !! sock_data sk = Some s →
  activeSessions w !! sock_session sk = Some (sock_data sk) →
  connection upd = Some conn_open →
  let w' := deliver DR now k (EvConnectionUpdate upd user_id) w in
  timers w' = match reconnectTimer s with
              | Some t => cancel t (timers w)
              | None => timers w
              end
  ∧ getSessionStatus (sock_session sk) w'
    = mkSessionStatus true "connected" true (phone_of user_id) false
  ∧ ∃ s', heap w' !! sock_data sk = Some s'
      ∧ isConnected s' = true ∧ status s' = "connected" ∧ qrCode s' = None
      ∧ reconnectTimer s' = None ∧ phoneNumber s' = phone_of user_id
      ∧ socket s' = socket s.
Proof.
  intros Hk Hs Hreg Hc w'. subst w'.
  rewrite (deliver_eq _ _ _ _ _ _ _ Hk Hs). cbn [handle].
  unfold connection_update. rewrite Hc. unfold on_open, clear_reconnectTimer.
  rewrite on_qr_reconnectTimer.
  assert (Hsock : socket (on_qr now upd s) = socket s).
  { unfold on_qr. by destruct (truthy (qr upd)). }
  destruct (reconnectTimer s) as [t|] eqn:Ht;
    cbn [fst snd apply_effects foldl apply_effect];
    (split; [done|]);
    (split; [unfold getSessionStatus, get_session; cbn; rewrite Hreg; cbn;
             rewrite lookup_insert_eq; done|]);
    eexists; cbn; rewrite lookup_insert_eq; (split; [done|]); cbn;
    rewrite ?on_qr_reconnectTimer; done.
Qed.

Lemma open_connects_witness :
  let w := run documentedReasons
             [ApiConnect online 0 "s1"; SocketEmits 1000 0%nat (close_event 515)] startup in
  let w' := deliver documentedReasons 2000 0%nat
              (EvConnectionUpdate {| connection := Some conn_open; qr := None;
                                     statusCode := None |}
                                  (Some "15550100000:7@s.whatsapp.net")) w in
  timers w = [mkTimer 0 3000 "s1" 0]
  ∧ timers w' = []
  ∧ getSessionStatus "s1" w'
    = mkSessionStatus true "connected" true (Some "15550100000") false.
Proof.
  intros w w'. split; [vm_compute; reflexivity|].
  destruct (open_connects documentedReasons 2000 0%nat (Some "15550100000:7@s.whatsapp.net")
              {| connection := Some conn_open; qr := None; statusCode := None |}
              w (mkSocket "s1" 0 sock_live)
              (mkSession (Some 0%nat) false None None false None "reconnecting" (Some 0%nat)))
    as (Hts & Hst & _); [vm_compute; reflexivity..|].
  split; [etrans; [exact Hts|vm_compute; reflexivity]|].
  etrans; [exact Hst|]. vm_compute. reflexivity.
Defined.

(** X12. A connection-closed event whose status code is neither the logout
    code nor a recoverable one (or is missing): the record is [failed] and
    not connected; its QR code, generation time, scanned flag and timer
    handle are as before, no timer is set or cancelled, and the session
    stays registered with its credentials on disk. *)
Theorem fatal_close_keeps_record DR now k user_id code w sk s :
  sockets w !! k = Some sk →
  heap w !! sock_data sk = Some s →
  code_is code (loggedOut DR) = false →
  recoverable DR code = false →
  let w' := deliver DR now k (EvConnectionUpdate (closed_with code) user_id) w in
  timers w' = timers w
  ∧ activeSessions w' = activeSessions w
  ∧ authSessions w' = authSessions w
  ∧ heap w' !! sock_data sk
    = Some (set_status "failed" (set_isConnected false s)).
Proof.
  intros Hk Hs Hl Hr w'. subst w'.
  rewrite (deliver_eq _ _ _ _ _ _ _ Hk Hs). cbn [handle].
  unfold connection_update. cbn [connection closed_with statusCode].
  rewrite on_qr_closed_with. unfold on_close. rewrite Hl, Hr.
  cbn [fst snd apply_effects foldl]. repeat (split; [done|]).
  cbn. by rewrite lookup_insert_eq.
Qed.

Lemma fatal_close_keeps_record_witness :
  let w := run documentedReasons
             [ApiConnect online 0 "s1"; SocketEmits 1000 0%nat (qr_event "2@abc")] startup in
  let w' := deliver documentedReasons 2000 0%nat (close_event 403) w in
  timers w' = []
  ∧ session_field status "s1" w' = Some "failed"
  ∧ qr_route 3000 "s1" w'
    = Qr200 (mkQrBody (Some "2@abc") "failed" false None None (Some 1000)).
Proof.
  intros w w'.
  destruct (fatal_close_keeps_record documentedReasons 2000 0%nat None (Some 403) w
              (mkSocket "s1" 0 sock_live)
              (mkSession (Some 0%nat) false (Some "2@abc") (Some 1000) false None
                         "qr_pending" None))
    as (Hts & _); [vm_compute; reflexivity..|].
  split; [etrans; [exact Hts|vm_compute; reflexivity]|].
  vm_compute. repeat split.
Defined.

(** X13. A connection-closed event with a recoverable status code on a
    record that holds no QR code and was not scanned: the record becomes
    [reconnecting], and a reconnect timer of 3000 ms is set when none is
    outstanding (the outstanding one is kept otherwise). *)
Theorem close_without_qr_reconnects DR now k user_id code w sk s :
  sockets w !! k = Some sk →
  heap w !! sock_data sk = Some s →
  code_is code (loggedOut DR) = false →
  recoverable DR code = true →
  qrScanned s = false →
  truthy (qrCode s) = false →
  let w' := deliver DR now k (EvConnectionUpdate (closed_with code) user_id) w in
  activeSessions w' = activeSessions w
  ∧ ∃ s', heap w' !! sock_data sk = Some s'
      ∧ status s' = "reconnecting"
      ∧ isConnected s' = false
      ∧ match reconnectTimer s with
        | None =>
            reconnectTimer s' = Some (nextTimer w)
            ∧ timers w'
              = timers w ++ [mkTimer (nextTimer w) 3000 (sock_session sk) (sock_data sk)]
        | Some t => reconnectTimer s' = Some t ∧ timers w' = timers w
        end.
Proof.
  intros Hk Hs Hl Hr Hscan Hqr w'. subst w'.
  rewrite (deliver_eq _ _ _ _ _ _ _ Hk Hs). cbn [handle].
  rewrite connection_update_recoverable by done.
  rewrite on_qr_closed_with.
  unfold on_recoverable. cbn [qrScanned qrCode set_isConnected].
  rewrite Hscan, Hqr.
  destruct (reconnectTimer s) as [t|] eqn:Ht.
  - erewrite schedule_reconnect_pending by (cbn; exact Ht).
    cbn [fst snd apply_effects foldl heap set_heap timers].
    split; [done|]. eexists. rewrite lookup_insert_eq. split; [done|]. by cbn.
  - rewrite schedule_reconnect_idle by (cbn; exact Ht).
    cbn [fst snd apply_effects foldl apply_effect heap set_heap set_nextTimer set_timers timers].
    split; [done|]. eexists. rewrite lookup_insert_eq. split; [done|]. by cbn.
Qed.

Lemma close_without_qr_reconnects_witness :
  let w := run documentedReasons [ApiConnect online 0 "s1"] startup in
  let w' := deliver documentedReasons 1000 0%nat (close_event 428) w in
  session_field status "s1" w' = Some "reconnecting"
  ∧ timers w' = [mkTimer 0 3000 "s1" 0].
Proof.
  intros w w'.
  destruct (close_without_qr_reconnects documentedReasons 1000 0%nat None (Some 428) w
              (mkSocket "s1" 0 sock_live) (set_socket (Some 0%nat) newSessionData))
    as (_ & s' & _ & _ & _ & _ & Hts); [vm_compute; reflexivity..|].
  split; [vm_compute; reflexivity|exact Hts].
Defined.

(** X14. A pairing string delivered to the socket of a registered record at
    time [t] is what the QR route returns, with status [qr_pending], at
    every query up to [t + 180000] ms; later queries answer [qr_expired]. *)
Theorem qr_event_then_route DR t now k user_id code w sk s :
  sockets w !! k = Some sk →
  heap w !! sock_data sk = Some s →
  activeSessions w !! sock_session sk = Some (sock_data sk) →
  code ≠ "" →
  let w' := deliver DR t k
              (EvConnectionUpdate {| connection := None; qr := Some code;
                                     statusCode := None |} user_id) w in
  (now <= t + 180000 →
     qr_route now (sock_session sk) w'
     = Qr200 (mkQrBody (Some code) "qr_pending" (isConnected s) (phoneNumber s) None
                       (Some t)))
  ∧ (t + 180000 < now →
     qr_route now (sock_session sk) w'
     = Qr200 (mkQrBody None "qr_expired" (isConnected s) None
                       (Some "QR code expired. Please reconnect.") (Some t))).
Proof.
  intros Hk Hs Hreg Hne w'. subst w'.
  rewrite (deliver_eq _ _ _ _ _ _ _ Hk Hs). cbn [handle].
  unfold connection_update, on_qr. cbn [connection qr].
  assert (Ht : truthy (Some code) = true).
  { cbn. destruct (String.eqb_spec code ""); done. }
  rewrite Ht. cbn [fst snd apply_effects foldl].
  unfold qr_route, getQRCode, get_session. cbn [activeSessions set_heap heap].
  rewrite Hreg. cbn [mbind option_bind]. rewrite lookup_insert_eq.
  cbn [mbind option_bind qd_qrCode qd_qrGeneratedAt qd_status qd_isConnected
       qd_phoneNumber qrCode qrGeneratedAt status isConnected phoneNumber
       set_status set_qrGeneratedAt set_qrCode].
  rewrite Ht. unfold isExpired. split; intros Hage.
  - by rewrite (proj2 (Z.ltb_ge _ _)) by lia.
  - by rewrite (proj2 (Z.ltb_lt _ _)) by lia.
Qed.

Lemma qr_event_then_route_witness :
  let w := run documentedReasons [ApiConnect online 0 "s1"] startup in
  let w' := deliver documentedReasons 1000 0%nat (qr_event "2@abc") w in
  qr_route 181000 "s1" w'
  = Qr200 (mkQrBody (Some "2@abc") "qr_pending" false None None (Some 1000)).
Proof.
  intros w w'.
  destruct (qr_event_then_route documentedReasons 1000 181000 0%nat None "2@abc" w
              (mkSocket "s1" 0 sock_live) (set_socket (Some 0%nat) newSessionData))
    as [Hfresh _]; [vm_compute; reflexivity..|discriminate|].
  apply Hfresh. lia.
Defined.

Lemma before_colon_app a b :
  all_chars (λ c, negb (Ascii.eqb c ":")) a = true →
  before_colon (a +:+ ":" +:+ b) = a.
Proof.
  induction a as [|c a IH]; string_app; [done|]. cbn.
  intros [Hc Ha]%andb_true_iff. apply negb_true_iff in Hc. rewrite Hc. by rewrite IH.
Qed.

(** X15. The phone number of a connected record: for a user id
    [digits:device@server] it is the part before the first colon; it is
    [null] when the id is missing or has nothing before the colon. *)
Theorem phone_of_user_id a b :
  all_chars (λ c, negb (Ascii.eqb c ":")) a = true →
  phone_of (Some (a +:+ ":" +:+ b)) = (if String.eqb a "" then None else Some a)
  ∧ phone_of None = None.
Proof.
  intros Ha. unfold phone_of. by rewrite before_colon_app.
Qed.

Lemma phone_of_user_id_witness :
  phone_of (Some "15550100000:12@s.whatsapp.net") = Some "15550100000"
  ∧ phone_of None = None.
Proof.
  exact (phone_of_user_id "15550100000" "12@s.whatsapp.net" eq_refl).
Defined.

(** ** What every record keeps, over every run *)

Section RecordInvariant.

Variable DR : DisconnectReason.

Lemma session_ok_new k : session_ok (set_socket k newSessionData).
Proof. repeat split; cbn; done. Qed.

Lemma session_ok_on_qr now upd s : session_ok s → session_ok (on_qr now upd s).
Proof.
  intros (H1 & H2 & H3). unfold on_qr. destruct (truthy (qr upd)) eqn:Hq; [|done].
  repeat split; cbn; done.
Qed.

Lemma session_ok_schedule fresh delay s :
  isConnected s = false →
  status s ≠ "connected" →
  (qrCode s ≠ None → truthy (qrCode s) = true ∧ is_Some (qrGeneratedAt s)) →
  session_ok (schedule_reconnect fresh delay s).1.
Proof.
  intros Hc Hst Hq. unfold schedule_reconnect.
  destruct (reconnectTimer s); cbn; (split; [done|]); (split; [|done]); cbn; congruence.
Qed.

(** Both listeners keep a record consistent. *)
Lemma session_ok_handle now fresh ev s :
  session_ok s → session_ok (handle DR now fresh ev s).1.
Proof.
  intros Hs. destruct ev as [upd user_id|]; cbn [handle].
  - unfold connection_update.
    apply (session_ok_on_qr now upd) in Hs.
    set (s1 := on_qr now upd s) in *. destruct Hs as (H1 & H2 & H3).
    destruct (connection upd) as [[| |]|]; try done.
    + unfold on_open, clear_reconnectTimer.
      destruct (reconnectTimer s1) eqn:Ht; cbn; repeat split; cbn; done.
    + unfold on_close.
      destruct (code_is (statusCode upd) (loggedOut DR)).
      { unfold clear_reconnectTimer. cbn [reconnectTimer set_status set_isConnected].
        destruct (reconnectTimer s1) eqn:Ht; cbn; repeat split; cbn; try done;
          by apply H3. }
      destruct (recoverable DR (statusCode upd)).
      2:{ cbn. repeat split; cbn; try done; by apply H3. }
      unfold on_recoverable. cbn [qrScanned qrCode qrGeneratedAt set_isConnected set_status].
      destruct (qrScanned s1).
      { apply session_ok_schedule; cbn; done. }
      destruct (truthy (qrCode s1)) eqn:Hq.
      * destruct (qrGeneratedAt s1) as [g|] eqn:Hg; [destruct (isExpired now g)|].
        -- apply session_ok_schedule; cbn; done.
        -- cbn. repeat split; cbn; try done; rewrite ?Hg; eauto.
        -- exfalso. destruct H3 as [_ [x Hx]]; [|done].
           intros Hn. by rewrite Hn in Hq.
      * apply session_ok_schedule; cbn; try done.
        intros Hn. by destruct (H3 Hn).
  - unfold creds_update. cbn [fst].
    destruct (truthy (qrCode s)) eqn:Hq; [|done].
    destruct Hs as (H1 & H2 & H3).
    repeat split; cbn; try done; by apply H3.
Qed.

Lemma sessions_ok_insert r s w :
  session_ok s → sessions_ok w → sessions_ok (set_heap (<[r := s]> (heap w)) w).
Proof.
  intros Hs Hw r0 s0. cbn. destruct (decide (r = r0)) as [<-|Hne].
  - rewrite lookup_insert_eq. by intros [= <-].
  - rewrite lookup_insert_ne by done. apply Hw.
Qed.

Lemma sessions_ok_ext w w' : heap w' = heap w → sessions_ok w → sessions_ok w'.
Proof. intros Hh Hw r s. rewrite Hh. apply Hw. Qed.

Lemma heap_apply_effects sessionId r es : ∀ w,
  heap (apply_effects sessionId r es w) = heap w.
Proof.
  unfold apply_effects.
  induction es as [|e es IH]; intros w; [done|]. cbn [foldl]. rewrite IH. by destruct e.
Qed.

Lemma sessions_ok_update r f w :
  (∀ s, session_ok s → session_ok (f s)) →
  sessions_ok w → sessions_ok (update_data r f w).
Proof.
  intros Hf Hw r0 s0. unfold update_data. cbn.
  destruct (decide (r = r0)) as [<-|Hne].
  - rewrite lookup_alter_eq. destruct (heap w !! r) as [s|] eqn:Hs; [|done].
    cbn. intros [= <-]. apply Hf. by eapply Hw.
  - rewrite lookup_alter_ne by done. apply Hw.
Qed.

Lemma sessions_ok_initializeWhatsApp env now sessionId w :
  sessions_ok w → sessions_ok (initializeWhatsApp env now sessionId w).2.
Proof.
  intros Hw.
  assert (Hfresh : ∀ w0, sessions_ok w0 → sessions_ok (fresh_attempt env sessionId w0).2).
  { intros w0 Hw0.
    assert (Hw1 : sessions_ok (prepare_auth_dir sessionId w0)).
    { eapply sessions_ok_ext; [|exact Hw0]. unfold prepare_auth_dir.
      by destruct (authSessions w0 !! sessionId) as [[]|]. }
    unfold fresh_attempt.
    destruct (authStateLoads env); [|done]. destruct (versionFetched env); [|done].
    destruct (whatsappReachable env); [|done]. destruct (socketCreated env); [|done].
    cbn [negb snd]. intros r s. cbn. destruct (decide (nextRef (prepare_auth_dir sessionId w0) = r))
      as [<-|Hne].
    - rewrite lookup_insert_eq. intros [= <-]. apply session_ok_new.
    - rewrite lookup_insert_ne by done. apply Hw1. }
  unfold initializeWhatsApp.
  destruct (get_session sessionId w) as [[r s]|]; [|by apply Hfresh].
  destruct (reusable now s); [done|]. apply Hfresh.
  eapply sessions_ok_ext; [|exact Hw]. unfold teardown. by destruct (socket s).
Qed.

Lemma session_ok_failed s : session_ok s → session_ok (set_status "failed" s).
Proof. intros (H1 & H2 & H3). repeat split; cbn; try done; by apply H3. Qed.

Lemma session_ok_no_timer s : session_ok s → session_ok (set_reconnectTimer None s).
Proof.
  intros (H1 & H2 & H3). repeat split; cbn; try done;
    first [by apply H1 | by apply H3].
Qed.

Lemma sessions_ok_step a w : sessions_ok w → sessions_ok (step DR a w).
Proof.
  intros Hw. destruct a as [env now sid|env now sid body|sid|now k ev|env now t]; cbn [step].
  - by apply sessions_ok_initializeWhatsApp.
  - eapply sessions_ok_ext; [|exact Hw]. unfold send_route.
    destruct (validateWhatsAppMessage body); [done|].
    destruct (RateLimiter.checkLimit _ _ _) as [[e|[]] rl]; [done|].
    by destruct (sendWhatsAppMessage _ _ _ _ _).
  - unfold disconnect_route.
    destruct (get_session sid w) as [[r s]|] eqn:Hget; [|done].
    assert (Hs : heap w !! r = Some s).
    { unfold get_session in Hget. destruct (activeSessions w !! sid) as [r'|]; [|done].
      cbn in Hget. destruct (heap w !! r') as [s'|] eqn:E; [|done]. cbn in Hget. congruence. }
    assert (Hok : session_ok (clear_reconnectTimer s).1).
    { unfold clear_reconnectTimer. destruct (reconnectTimer s) eqn:Ht; cbn.
      - apply session_ok_no_timer. by eapply Hw.
      - by eapply Hw. }
    destruct (clear_reconnectTimer s) as [s1 es]. cbn [fst] in Hok.
    eapply sessions_ok_ext; [|apply (sessions_ok_insert r s1 w Hok Hw)].
    destruct (socket s1); cbn; by rewrite heap_apply_effects.
  - unfold deliver. destruct (sockets w !! k) as [sk|]; [|done].
    destruct (heap w !! sock_data sk) as [s|] eqn:Hs; [|done].
    pose proof (session_ok_handle now (nextTimer w) ev s (Hw _ _ Hs)) as Hok.
    destruct (handle DR now (nextTimer w) ev s) as [s' es]. cbn [fst] in Hok.
    eapply sessions_ok_ext; [apply heap_apply_effects|].
    by apply sessions_ok_insert.
  - unfold fire_timer.
    destruct (list_find _ (timers w)) as [[i tm]|]; [|done].
    set (w2 := update_data _ _ _).
    assert (Hw2 : sessions_ok w2).
    { apply sessions_ok_update; [apply session_ok_no_timer|].
      eapply sessions_ok_ext; [|exact Hw]. done. }
    pose proof (sessions_ok_initializeWhatsApp env now (timer_session tm) w2 Hw2) as Hw3.
    destruct (initializeWhatsApp env now (timer_session tm) w2) as [[e|r] w3]; cbn in Hw3.
    + apply sessions_ok_update; [apply session_ok_failed|done].
    + done.
Qed.

Lemma sessions_ok_run acts : ∀ w, sessions_ok w → sessions_ok (run DR acts w).
Proof.
  induction acts as [|a acts IH]; intros w Hw; [done|].
  cbn. by apply IH, sessions_ok_step.
Qed.

Lemma sessions_ok_startup : sessions_ok startup.
Proof. intros r s. cbn. by rewrite lookup_empty. Qed.

(** X16. After any run from start-up, a record whose status is [connected]
    has [isConnected] set and holds no QR code. *)
Theorem connected_status_means_connected acts r s :
  heap (run DR acts startup) !! r = Some s →
  status s = "connected" →
  isConnected s = true ∧ qrCode s = None.
Proof.
  intros Hs Hst.
  destruct (sessions_ok_run acts startup sessions_ok_startup r s Hs) as (H1 & _).
  by apply H1.
Qed.

(** X17. After any run from start-up, a record with [isConnected] set
    holds no timer handle, and no reconnect timer of that record is
    pending. *)
Theorem connected_has_no_timer acts r s :
  heap (run DR acts startup) !! r = Some s →
  isConnected s = true →
  reconnectTimer s = None ∧ timers_of r (run DR acts startup) = [].
Proof.
  intros Hs Hc.
  destruct (sessions_ok_run acts startup sessions_ok_startup r s Hs) as (_ & H2 & _).
  pose proof (H2 Hc) as Ht. split; [done|].
  assert (Hw : timers_wf (run DR acts startup)) by apply timers_wf_run, timers_wf_startup.
  apply filter_drop_all, Forall_forall. intros tm Htm Hdata.
  destruct (wf_owner _ Hw tm Htm) as (s' & Hs' & Hf).
  rewrite Hdata, Hs in Hs'. congruence.
Qed.

(** X18. After any run from start-up, a QR code stored in a record is a
    non-empty string and the record also holds its generation time. *)
Theorem stored_qr_is_dated acts r s code :
  heap (run DR acts startup) !! r = Some s →
  qrCode s = Some code →
  code ≠ "" ∧ is_Some (qrGeneratedAt s).
Proof.
  intros Hs Hq.
  destruct (sessions_ok_run acts startup sessions_ok_startup r s Hs) as (_ & _ & H3).
  destruct H3 as [Ht Hg]; [congruence|]. split; [|done].
  rewrite Hq in Ht. cbn in Ht. intros ->. done.
Qed.

End RecordInvariant.

Lemma connected_status_means_connected_witness :
  let acts := [ApiConnect online 0 "s1"; SocketEmits 1000 0%nat (qr_event "2@abc");
               SocketEmits 5000 0%nat EvCredsUpdate;
               SocketEmits 6000 0%nat
                 (EvConnectionUpdate {| connection := Some conn_open; qr := None;
                                        statusCode := None |} (Some "15550100000:1@x"))] in
  ∃ s, heap (run documentedReasons acts startup) !! 0%nat = Some s
    ∧ status s = "connected" ∧ isConnected s = true ∧ qrCode s = None.
Proof.
  intros acts.
  set (s := mkSession (Some 0%nat) true None (Some 1000) true (Some "15550100000")
                      "connected" None).
  assert (Hs : heap (run documentedReasons acts startup) !! 0%nat = Some s)
    by (vm_compute; reflexivity).
  exists s. split; [exact Hs|]. split; [reflexivity|].
  exact (connected_status_means_connected documentedReasons acts 0%nat s Hs eq_refl).
Defined.

Lemma connected_has_no_timer_witness :
  let acts := [ApiConnect online 0 "s1"; SocketEmits 1000 0%nat (close_event 515);
               SocketEmits 6000 0%nat
                 (EvConnectionUpdate {| connection := Some conn_open; qr := None;
                                        statusCode := None |} (Some "15550100000:1@x"))] in
  timers_of 0 (run documentedReasons (take 2 acts) startup) = [mkTimer 0 3000 "s1" 0]
  ∧ timers_of 0 (run documentedReasons acts startup) = [].
Proof.
  intros acts. split; [vm_compute; reflexivity|].
  set (s := mkSession (Some 0%nat) true None None false (Some "15550100000")
                      "connected" None).
  destruct (connected_has_no_timer documentedReasons acts 0%nat s) as [_ H];
    [vm_compute; reflexivity|reflexivity|exact H].
Defined.

Lemma stored_qr_is_dated_witness :
  let acts := [ApiConnect online 0 "s1"; SocketEmits 1000 0%nat (qr_event "2@abc")] in
  "2@abc" ≠ ""
  ∧ is_Some (qrGeneratedAt (mkSession (Some 0%nat) false (Some "2@abc") (Some 1000) false
                                      None "qr_pending" None)).
Proof.
  intros acts.
  apply (stored_qr_is_dated documentedReasons acts 0%nat
           (mkSession (Some 0%nat) false (Some "2@abc") (Some 1000) false None
                      "qr_pending" None) "2@abc");
    [vm_compute; reflexivity|reflexivity].
Defined.

(** ** Sessions do not disturb each other *)

Section Isolation.

Variable DR : DisconnectReason.
















Lemma get_session_heap sessionId w r s :
  get_session sessionId w = Some (r, s)
  ↔ activeSessions w !! sessionId = Some r ∧ heap w !! r = Some s.
Proof.
  unfold get_session. destruct (activeSessions w !! sessionId) as [r'|]; cbn.
  - destruct (heap w !! r') as [s'|] eqn:E; cbn.
    + split; [by intros [= <- <-]|]. intros [[= <-] Hs]. congruence.
    + split; [done|]. intros [[= <-] Hs]. congruence.
  - split; [done|]. by intros [? _].
Qed.



End Isolation.


(** ** initializeWhatsApp: what a call leaves behind *)

Lemma get_session_prepare_auth_dir sessionId other w :
  get_session other (prepare_auth_dir sessionId w) = get_session other w.
Proof. unfold prepare_auth_dir. by destruct (authSessions w !! sessionId) as [[]|]. Qed.

Lemma fresh_attempt_cases env sessionId w :
  let w1 := prepare_auth_dir sessionId w in
  (∃ e, fresh_attempt env sessionId w = (inl e, w1))
  ∨ fresh_attempt env sessionId w
    = (inr (nextRef w),
       set_nextRef (S (nextRef w)) (set_nextSocket (S (nextSocket w))
         (set_activeSessions (<[sessionId := nextRef w]> (activeSessions w1))
           (set_heap (<[nextRef w := set_socket (Some (nextSocket w)) newSessionData]> (heap w1))
             (set_sockets (<[nextSocket w := mkSocket sessionId (nextRef w) sock_live]>
                             (sockets w1)) w1))))).
Proof.
  assert (Hn : nextRef (prepare_auth_dir sessionId w) = nextRef w
               ∧ nextSocket (prepare_auth_dir sessionId w) = nextSocket w).
  { unfold prepare_auth_dir. by destruct (authSessions w !! sessionId) as [[]|]. }
  destruct Hn as [Hr Hk]. unfold fresh_attempt. cbn zeta. rewrite Hr, Hk.
  destruct (authStateLoads env); cbn [negb]; [|left; eauto].
  destruct (versionFetched env); cbn [negb]; [|left; eauto].
  destruct (whatsappReachable env); cbn [negb]; [|left; eauto].
  destruct (socketCreated env); cbn [negb]; [|left; eauto].
  by right.
Qed.

Lemma prepare_auth_dir_same sessionId w :
  activeSessions (prepare_auth_dir sessionId w) = activeSessions w
  ∧ heap (prepare_auth_dir sessionId w) = heap w
  ∧ timers (prepare_auth_dir sessionId w) = timers w
  ∧ sockets (prepare_auth_dir sessionId w) = sockets w
  ∧ nextSocket (prepare_auth_dir sessionId w) = nextSocket w.
Proof. unfold prepare_auth_dir. by destruct (authSessions w !! sessionId) as [[]|]. Qed.

Lemma teardown_same sessionId s w :
  heap (teardown sessionId s w) = heap w
  ∧ timers (teardown sessionId s w) = timers w
  ∧ nextSocket (teardown sessionId s w) = nextSocket w
  ∧ nextRef (teardown sessionId s w) = nextRef w
  ∧ authSessions (teardown sessionId s w) = authSessions w
  ∧ ∀ k sk, sockets (teardown sessionId s w) !! k = Some sk → sock_state sk = sock_live →
            sockets w !! k = Some sk.
Proof.
  unfold teardown. destruct (socket s) as [k0|]; cbn; repeat split; try done.
  intros k sk. destruct (decide (k = k0)) as [->|Hne].
  - rewrite lookup_alter_eq. destruct (sockets w !! k0); cbn; [|done].
    intros [= <-]. done.
  - by rewrite lookup_alter_ne.
Qed.

(** X20. A call of [initializeWhatsApp] that throws leaves the session id
    unregistered, also when it was registered before the call; it adds no
    record, no timer and no socket, and no socket that is live afterwards
    was not live before. *)
Theorem initializeWhatsApp_throws env now sessionId w e :
  (initializeWhatsApp env now sessionId w).1 = inl e →
  let w' := (initializeWhatsApp env now sessionId w).2 in
  get_session sessionId w' = None
  ∧ heap w' = heap w ∧ timers w' = timers w ∧ nextSocket w' = nextSocket w
  ∧ ∀ k sk, sockets w' !! k = Some sk → sock_state sk = sock_live → sockets w !! k = Some sk.
Proof.
  unfold initializeWhatsApp.
  destruct (get_session sessionId w) as [[r s]|] eqn:Hget.
  - destruct (reusable now s); [done|].
    destruct (teardown_same sessionId s w) as (T1 & T2 & T3 & _ & _ & T6).
    destruct (prepare_auth_dir_same sessionId (teardown sessionId s w))
      as (P1 & P2 & P3 & P4 & P5).
    destruct (fresh_attempt_cases env sessionId (teardown sessionId s w)) as [[e' ->]| ->];
      [|done].
    intros _. cbn [snd]. rewrite get_session_prepare_auth_dir, get_session_teardown.
    rewrite P2, P3, P4, P5, T1, T2, T3. done.
  - destruct (prepare_auth_dir_same sessionId w) as (P1 & P2 & P3 & P4 & P5).
    destruct (fresh_attempt_cases env sessionId w) as [[e' ->]| ->]; [|done].
    intros _. cbn [snd]. rewrite get_session_prepare_auth_dir, Hget.
    rewrite P2, P3, P4, P5. done.
Qed.

Lemma initializeWhatsApp_throws_witness :
  let offline := {| authStateLoads := true; versionFetched := true;
                    whatsappReachable := false; socketCreated := true;
                    sendOutcome := inr "3EB0A1" |} in
  let w := run documentedReasons
             [ApiConnect online 0 "s1"; SocketEmits 1000 0%nat (close_event 500)] startup in
  is_Some (get_session "s1" w)
  ∧ get_session "s1" (initializeWhatsApp offline 2000 "s1" w).2 = None.
Proof.
  intros offline w. split; [vm_compute; eauto|].
  destruct (initializeWhatsApp_throws offline 2000 "s1" w CannotReachWhatsApp) as (H & _);
    [vm_compute; reflexivity|exact H].
Defined.

(** X21. A call of [initializeWhatsApp] that returns, returns the record
    that is registered under the session id afterwards.  It is either the
    record registered before, reusable, with the process unchanged; or a
    new record (status [connecting], not connected, no QR code, no timer)
    whose socket is new and live, with listeners that close over this id
    and this record. *)
Theorem initializeWhatsApp_returns_registered env now sessionId w r w' :
  initializeWhatsApp env now sessionId w = (inr r, w') →
  ∃ s, get_session sessionId w' = Some (r, s)
    ∧ ((w' = w ∧ reusable now s = true)
       ∨ (s = set_socket (Some (nextSocket w)) newSessionData
          ∧ r = nextRef w
          ∧ sockets w' !! nextSocket w = Some (mkSocket sessionId r sock_live)
          ∧ nextSocket w' = S (nextSocket w))).
Proof.
  assert (Hfresh : ∀ w0, nextRef w0 = nextRef w → nextSocket w0 = nextSocket w →
    fresh_attempt env sessionId w0 = (inr r, w') →
    get_session sessionId w' = Some (r, set_socket (Some (nextSocket w)) newSessionData)
    ∧ r = nextRef w
    ∧ sockets w' !! nextSocket w = Some (mkSocket sessionId r sock_live)
    ∧ nextSocket w' = S (nextSocket w)).
  { intros w0 Hr Hk.
    destruct (fresh_attempt_cases env sessionId w0) as [[e' ->]| ->]; [done|].
    rewrite Hr, Hk. intros [= <- <-].
    split; [apply get_session_heap; cbn; by rewrite !lookup_insert_eq|].
    cbn. by rewrite lookup_insert_eq. }
  unfold initializeWhatsApp.
  destruct (get_session sessionId w) as [[r0 s0]|] eqn:Hget.
  - destruct (reusable now s0) eqn:Hre.
    + intros [= <- <-]. exists s0. split; [done|]. by left.
    + destruct (teardown_same sessionId s0 w) as (_ & _ & T3 & T4 & _).
      intros (H1 & H2 & H3 & H4)%Hfresh; [|done..].
      eexists. split; [exact H1|]. right. done.
  - intros (H1 & H2 & H3 & H4)%Hfresh; [|done..].
    eexists. split; [exact H1|]. right. done.
Qed.

Lemma initializeWhatsApp_returns_registered_witness :
  ∃ s, get_session "s1" (initializeWhatsApp online 0 "s1" startup).2 = Some (0%nat, s)
    ∧ status s = "connecting" ∧ socket s = Some 0%nat.
Proof.
  destruct (initializeWhatsApp_returns_registered online 0 "s1" startup 0%nat
              (initializeWhatsApp online 0 "s1" startup).2) as (s & Hs & Hcase);
    [vm_compute; reflexivity|].
  exists s. split; [exact Hs|].
  destruct Hcase as [[_ Hre]|(-> & _)]; [|done].
  vm_compute in Hs. injection Hs as <-. done.
Defined.

(** ** Credentials on disk *)





Lemma update_data_authSessions data f w :
  authSessions (update_data data f w) = authSessions w.
Proof. done. Qed.



(** ** The disconnect route *)

Section Disconnect.
Variable DR : DisconnectReason.

(** X23. [DELETE /disconnect/:sessionId] on a registered session, in any
    process reached from start-up: the id is unregistered, the record holds
    no timer handle and none of its reconnect timers is pending, its socket
    was logged out when the record was connected and ended otherwise, the
    credentials on disk are untouched, and a second disconnect changes
    nothing. *)
Theorem disconnect_route_cleans acts sessionId r s :
  get_session sessionId (run DR acts startup) = Some (r, s) →
  let w' := disconnect_route sessionId (run DR acts startup) in
  get_session sessionId w' = None
  ∧ heap w' !! r = Some (set_reconnectTimer None s)
  ∧ timers_of r w' = []
  ∧ (∀ k sk, socket s = Some k → sockets (run DR acts startup) !! k = Some sk →
       sock_state <$> sockets w' !! k
       = Some (if isConnected s then sock_logged_out else sock_ended))
  ∧ authSessions w' = authSessions (run DR acts startup)
  ∧ disconnect_route sessionId w' = w'.
Proof.
  set (w := run DR acts startup). intros Hget.
  assert (Hw : timers_wf w) by apply timers_wf_run, timers_wf_startup.
  pose proof Hget as [Hreg Hs]%get_session_heap.
  assert (Hnone : get_session sessionId (disconnect_route sessionId w) = None).
  { unfold disconnect_route. rewrite Hget.
    destruct (clear_reconnectTimer s) as [s1 es]. unfold get_session. cbn.
    by rewrite lookup_delete_eq. }
  cbn zeta. split; [done|].
  split; [|split; [|split; [|split]]].
  - unfold disconnect_route. rewrite Hget. unfold clear_reconnectTimer.
    destruct (reconnectTimer s) as [t|] eqn:Ht;
      cbn [socket set_reconnectTimer apply_effects foldl apply_effect];
      destruct (socket s); cbn; rewrite lookup_insert_eq; try done;
      f_equal; destruct s; cbn in *; by subst.
  - apply filter_drop_all, Forall_forall. intros tm Htm Hdata.
    assert (Hin : tm ∈ timers w ∧ (∀ t, reconnectTimer s = Some t → timer_id tm ≠ t)).
    { revert Htm. unfold disconnect_route. rewrite Hget. unfold clear_reconnectTimer.
      destruct (reconnectTimer s) as [t|] eqn:Ht;
        cbn [socket set_reconnectTimer apply_effects foldl apply_effect];
        destruct (socket s); cbn; try (intros [Hne Hin]%elem_of_cancel);
        try (by split; [done|intros ? [= <-]]); by intros ?. }
    destruct Hin as [Hin Hne].
    destruct (wf_owner w Hw tm Hin) as (s' & Hs' & Hf).
    rewrite Hdata, Hs in Hs'. injection Hs' as <-. by apply (Hne _ Hf).
  - intros k sk Hk Hsk. unfold disconnect_route. rewrite Hget. unfold clear_reconnectTimer.
    destruct (reconnectTimer s) as [t|] eqn:Ht;
      cbn [socket set_reconnectTimer apply_effects foldl apply_effect isConnected];
      rewrite Hk; cbn; rewrite lookup_alter_eq, Hsk; done.
  - unfold disconnect_route. rewrite Hget. unfold clear_reconnectTimer.
    destruct (reconnectTimer s) as [t|];
      cbn [socket set_reconnectTimer apply_effects foldl apply_effect];
      by destruct (socket s).
  - unfold disconnect_route at 1. by rewrite Hnone.
Qed.

End Disconnect.

Lemma disconnect_route_cleans_witness :
  let acts := [ApiConnect online 0 "s1"; SocketEmits 1000 0%nat (close_event 515)] in
  timers_of 0 (run documentedReasons acts startup) = [mkTimer 0 3000 "s1" 0]
  ∧ timers_of 0 (disconnect_route "s1" (run documentedReasons acts startup)) = [].
Proof.
  intros acts. split; [vm_compute; reflexivity|].
  set (s := mkSession (Some 0%nat) false None None false None "reconnecting" (Some 0%nat)).
  destruct (disconnect_route_cleans documentedReasons acts "s1" 0%nat s) as (_ & _ & H & _);
    [vm_compute; reflexivity|exact H].
Defined.

(** ** The e-mail service and its routes *)

Lemma truthy_Some v : truthy v = true ↔ ∃ s, v = Some s ∧ s ≠ "".
Proof.
  destruct v as [s|]; cbn.
  - rewrite negb_true_iff. split.
    + intros H. exists s. split; [done|]. intros ->. done.
    + intros (s' & [= <-] & Hne). by apply String.eqb_neq.
  - split; [done|]. by intros (s & ? & _).
Qed.

Lemma port_missing_false p : EmailService.port_missing p = false ↔ ∃ n, p = Some n ∧ n ≠ 0.
Proof.
  destruct p as [n|]; cbn.
  - rewrite Z.eqb_neq. split; [eauto|]. by intros (n' & [= <-] & ?).
  - split; [done|]. by intros (n & ? & _).
Qed.

Lemma createTransporter_inr accountConfig transporter :
  EmailService.createTransporter accountConfig = inr transporter
  ↔ ∃ h p u pw,
      EmailService.host accountConfig = Some h ∧ h ≠ ""
      ∧ EmailService.port accountConfig = Some p ∧ p ≠ 0
      ∧ EmailService.user accountConfig = Some u ∧ u ≠ ""
      ∧ EmailService.pass accountConfig = Some pw ∧ pw ≠ ""
      ∧ transporter = EmailService.mkTransporter h p false u pw.
Proof.
  unfold EmailService.createTransporter. split.
  - destruct (truthy (EmailService.user accountConfig)) eqn:Hu; [|done].
    destruct (truthy (EmailService.pass accountConfig)) eqn:Hp; [|done].
    destruct (truthy (EmailService.host accountConfig)) eqn:Hh; [|done].
    destruct (EmailService.port_missing (EmailService.port accountConfig)) eqn:Hport; [done|].
    cbn [negb orb].
    apply truthy_Some in Hu as (u & Hu & ?), Hp as (pw & Hp & ?), Hh as (h & Hh & ?).
    apply port_missing_false in Hport as (p & Hport & ?).
    rewrite Hu, Hp, Hh, Hport. cbn. intros [= <-]. exists h, p, u, pw. done.
  - intros (h & p & u & pw & Hh & ? & Hport & ? & Hu & ? & Hp & ? & ->).
    rewrite (proj2 (truthy_Some (EmailService.user accountConfig))) by eauto.
    rewrite (proj2 (truthy_Some (EmailService.pass accountConfig))) by eauto.
    rewrite (proj2 (truthy_Some (EmailService.host accountConfig))) by eauto.
    rewrite (proj2 (port_missing_false (EmailService.port accountConfig))) by eauto.
    by rewrite Hh, Hport, Hu, Hp.
Qed.

Lemma sendEmail_sent_parts smtp accountConfig options messageId response :
  EmailService.sendEmail smtp accountConfig options = EmailService.Sent messageId response →
  ∃ recipient subj transporter,
    EmailService.to options = Some recipient
    ∧ EmailService.subject options = Some subj
    ∧ EmailService.createTransporter accountConfig = inr transporter
    ∧ smtp transporter
        (EmailService.mkMailOptions (EmailService.t_user transporter) recipient subj
           (EmailService.text options)
           (EmailService.or_else (EmailService.html options) (EmailService.text options))
           (default [] (EmailService.attachments options))
           (EmailService.present (EmailService.cc options))
           (EmailService.present (EmailService.bcc options)))
      = inr (messageId, response).
Proof.
  unfold EmailService.sendEmail.
  destruct (truthy (EmailService.to options)) eqn:Hto; [|done].
  destruct (truthy (EmailService.subject options)) eqn:Hsub; [|done].
  cbn [negb].
  destruct (EmailService.createTransporter accountConfig) as [m|tr] eqn:Htr; [done|].
  apply truthy_Some in Hto as (recipient & Hto & ?), Hsub as (subj & Hsub & ?).
  rewrite Hto, Hsub. cbn [default from_option id].
  destruct (smtp _ _) as [m|[id resp]] eqn:Hsmtp; [done|].
  intros [= <- <-]. exists recipient, subj, tr. done.
Qed.

(** X24. [sendEmail] reports success exactly when [to] and [subject] are
    non-empty, the account has a non-empty host, user and password and a
    port other than 0, and the SMTP server accepted the one message it was
    given: over STARTTLS ([secure: false]), from the account's user, with
    [html] falling back to [text], no attachments unless given, and [cc]
    and [bcc] only when they are non-empty. *)
Theorem sendEmail_sent smtp accountConfig options messageId response :
  EmailService.sendEmail smtp accountConfig options = EmailService.Sent messageId response
  ↔ ∃ recipient subj h p u pw,
      EmailService.to options = Some recipient ∧ recipient ≠ ""
      ∧ EmailService.subject options = Some subj ∧ subj ≠ ""
      ∧ EmailService.host accountConfig = Some h ∧ h ≠ ""
      ∧ EmailService.port accountConfig = Some p ∧ p ≠ 0
      ∧ EmailService.user accountConfig = Some u ∧ u ≠ ""
      ∧ EmailService.pass accountConfig = Some pw ∧ pw ≠ ""
      ∧ smtp (EmailService.mkTransporter h p false u pw)
             (EmailService.mkMailOptions u recipient subj (EmailService.text options)
                (EmailService.or_else (EmailService.html options) (EmailService.text options))
                (default [] (EmailService.attachments options))
                (EmailService.present (EmailService.cc options))
                (EmailService.present (EmailService.bcc options)))
        = inr (messageId, response).
Proof.
  unfold EmailService.sendEmail. split.
  - destruct (truthy (EmailService.to options)) eqn:Hto; [|done].
    destruct (truthy (EmailService.subject options)) eqn:Hsub; [|done].
    cbn [negb].
    destruct (EmailService.createTransporter accountConfig) as [m|tr] eqn:Htr; [done|].
    apply createTransporter_inr in Htr as (h & p & u & pw & ? & ? & ? & ? & ? & ? & ? & ? & ->).
    apply truthy_Some in Hto as (recipient & Hto & ?), Hsub as (subj & Hsub & ?).
    rewrite Hto, Hsub. cbn [default from_option id EmailService.t_user].
    destruct (smtp _ _) as [m|[id resp]] eqn:Hsmtp; [done|].
    intros [= <- <-]. exists recipient, subj, h, p, u, pw. done.
  - intros (recipient & subj & h & p & u & pw
            & Hto & ? & Hsub & ? & Hh & ? & Hport & ? & Hu & ? & Hp & ? & Hsmtp).
    rewrite (proj2 (truthy_Some (EmailService.to options))) by eauto.
    rewrite (proj2 (truthy_Some (EmailService.subject options))) by eauto.
    cbn [negb].
    rewrite (proj2 (createTransporter_inr accountConfig
                      (EmailService.mkTransporter h p false u pw)))
      by (exists h, p, u, pw; done).
    rewrite Hto, Hsub. cbn [default from_option id EmailService.t_user]. by rewrite Hsmtp.
Qed.

(** X25. When [to] or [subject] is missing or empty, or the account lacks
    a host, a port, a user or a password, [sendEmail] fails with one of its
    own four messages whatever the SMTP server would have done: the server
    is not contacted. *)
Theorem sendEmail_without_smtp smtp smtp' accountConfig options :
  truthy (EmailService.to options) && truthy (EmailService.subject options)
  && truthy (EmailService.user accountConfig) && truthy (EmailService.pass accountConfig)
  && truthy (EmailService.host accountConfig)
  && negb (EmailService.port_missing (EmailService.port accountConfig)) = false →
  EmailService.sendEmail smtp accountConfig options
  = EmailService.sendEmail smtp' accountConfig options
  ∧ ∃ error,
      EmailService.sendEmail smtp accountConfig options = EmailService.Failed error
      ∧ error ∈ ["Recipient email address (to) is required";
                 "Email subject is required";
                 "Failed to create email transporter: SMTP credentials are missing. Please provide user and pass in accountConfig";
                 "Failed to create email transporter: SMTP host and port are missing. Please provide host and port in accountConfig"].
Proof.
  unfold EmailService.sendEmail, EmailService.createTransporter.
  destruct (truthy (EmailService.to options)); cbn [negb andb].
  2:{ intros _. split; [done|]. eexists. split; [done|]. set_solver. }
  destruct (truthy (EmailService.subject options)); cbn [negb andb].
  2:{ intros _. split; [done|]. eexists. split; [done|]. set_solver. }
  destruct (truthy (EmailService.user accountConfig)); cbn [negb andb orb].
  2:{ intros _. split; [done|]. eexists. split; [done|]. set_solver. }
  destruct (truthy (EmailService.pass accountConfig)); cbn [negb andb orb].
  2:{ intros _. split; [done|]. eexists. split; [done|]. set_solver. }
  destruct (truthy (EmailService.host accountConfig)); cbn [negb andb orb].
  2:{ intros _. split; [done|]. eexists. split; [done|]. set_solver. }
  destruct (EmailService.port_missing (EmailService.port accountConfig)); cbn [negb]; [|done].
  intros _. split; [done|]. eexists. split; [done|]. set_solver.
Qed.

Lemma sendEmail_without_smtp_witness :
  let account := EmailService.mkAccount (Some "smtp.example.com") (Some 587)
                   (Some "me@example.com") None in
  let options := EmailService.mkOptions (Some "you@example.com") (Some "Hi") (Some "text")
                   None None None None in
  let accept : EmailService.Smtp := λ _ _, inr ("id", "250 OK") in
  let refuse : EmailService.Smtp := λ _ _, inl "550" in
  EmailService.sendEmail accept account options
  = EmailService.sendEmail refuse account options.
Proof.
  intros account options accept refuse.
  apply (sendEmail_without_smtp accept refuse account options). reflexivity.
Defined.

Lemma validateEmail_truthy body :
  validateEmail body = None →
  ∃ recipient, f_to body = Some recipient ∧ isValidEmail recipient = true
    ∧ truthy (f_to body) = true ∧ truthy (f_subject body) = true.
Proof.
  unfold validateEmail.
  destruct (blank (f_to body)) eqn:Hto; [done|].
  destruct (blank (f_subject body)) eqn:Hsub; [done|].
  apply blank_false_truthy in Hto as (recipient & Hto & Htt).
  apply blank_false_truthy in Hsub as (subj & Hsub & Hst).
  rewrite Hto in *. change (default "" (Some recipient)) with recipient.
  destruct (isValidEmail recipient) eqn:Hv; [|done].
  intros _. exists recipient. done.
Qed.

(** X26. The e-mail limiter counts per recipient address.  A request that
    [validateEmail] or the limiter refuses leaves the limiter as it was;
    every other request is recorded under its recipient, also when the
    sending then fails with 500. *)
Theorem email_send_route_limiter smtp now defaultAccount accountConfig body emailLimiter :
  let res := email_send_route smtp now defaultAccount accountConfig body emailLimiter in
  match res.1 with
  | Email400 _ | Email429 _ => res.2 = emailLimiter
  | _ =>
      ∃ recipient,
        f_to body = Some recipient ∧ isValidEmail recipient = true
        ∧ RateLimiter.requests res.2 !! recipient
          = Some (RateLimiter.validRequests now recipient emailLimiter ++ [now])
        ∧ ∀ other, other ≠ recipient →
            RateLimiter.requests res.2 !! other = RateLimiter.requests emailLimiter !! other
  end.
Proof.
  unfold email_send_route.
  destruct (validateEmail body) eqn:Hval; [done|].
  apply validateEmail_truthy in Hval as (recipient & Hto & Hv & _).
  rewrite Hto. change (default "" (Some recipient)) with recipient.
  destruct (RateLimiter.checkLimit now recipient emailLimiter) as [[e|[]] rl] eqn:Hcl; [done|].
  assert (Hrl : RateLimiter.requests rl
                = <[recipient := RateLimiter.validRequests now recipient emailLimiter ++ [now]]>
                    (RateLimiter.requests emailLimiter)).
  { unfold RateLimiter.checkLimit in Hcl. case_decide; [done|]. by injection Hcl as <-. }
  cbn zeta.
  destruct (EmailService.sendEmail _ _ _); cbn; exists recipient;
    rewrite Hrl, lookup_insert_eq; (repeat split; try done);
    intros other Hne; by rewrite lookup_insert_ne.
Qed.

(** X27. A 500 answer of [POST /send] never carries one of [sendEmail]'s
    required-field messages: after [validateEmail] let the body through,
    the error is that of [createTransporter] (the account is incomplete) or
    the one the SMTP server gave, "Failed to send email" when that is
    empty. *)
Theorem email_send_route_500 smtp now defaultAccount accountConfig body emailLimiter error rl :
  email_send_route smtp now defaultAccount accountConfig body emailLimiter
  = (Email500 error, rl) →
  EmailService.createTransporter (default defaultAccount accountConfig) = inl error
  ∨ ∃ transporter mailOptions message,
      EmailService.createTransporter (default defaultAccount accountConfig) = inr transporter
      ∧ smtp transporter mailOptions = inl message
      ∧ EmailService.m_to mailOptions = default "" (f_to body)
      ∧ EmailService.m_from mailOptions = EmailService.t_user transporter
      ∧ error = if String.eqb message "" then "Failed to send email" else message.
Proof.
  unfold email_send_route.
  destruct (validateEmail body) eqn:Hval; [done|].
  apply validateEmail_truthy in Hval as (recipient & Hto & Hv & Htt & Hst).
  destruct (RateLimiter.checkLimit _ _ _) as [[e|[]] rl0]; [done|].
  cbn zeta. unfold EmailService.sendEmail.
  cbn [EmailService.to EmailService.subject EmailService.text EmailService.html
       EmailService.cc EmailService.bcc EmailService.attachments].
  rewrite Htt, Hst. cbn [negb].
  destruct (EmailService.createTransporter (default defaultAccount accountConfig))
    as [m|tr] eqn:Htr.
  { intros [= <- <-]. by left. }
  destruct (smtp tr _) as [m|[id resp]] eqn:Hsmtp; [|done].
  intros [= <- <-]. right. eexists tr, _, m. split; [done|]. split; [exact Hsmtp|]. done.
Qed.

Lemma email_send_route_500_witness :
  let account := EmailService.mkAccount (Some "smtp.example.com") None
                   (Some "me@example.com") (Some "secret") in
  let body := mkEmailFields (Some "you@example.com") (Some "Hi") (Some "text")
                None None None in
  let accept : EmailService.Smtp := λ _ _, inr ("id", "250 OK") in
  EmailService.createTransporter account
  = inl "Failed to create email transporter: SMTP host and port are missing. Please provide host and port in accountConfig".
Proof.
  intros account body accept.
  destruct (email_send_route_500 accept 0 account None body RateLimiter.emailLimiter
              "Failed to create email transporter: SMTP host and port are missing. Please provide host and port in accountConfig"
              (email_send_route accept 0 account None body RateLimiter.emailLimiter).2)
    as [H|(tr & mo & m & H & _)].
  - vm_compute. reflexivity.
  - exact H.
  - vm_compute in H. discriminate H.
Defined.

(** X28. [POST /test] mails the account to itself.  When the account has
    no user, the answer is 500 "Recipient email address (to) is required"
    and the SMTP server is not contacted; a 200 answer means the server
    accepted a message from the account's user to the same address, with
    the fixed subject and the HTML part equal to the text. *)
Theorem email_test_route_self smtp stamp defaultAccount accountConfig :
  let account := default defaultAccount accountConfig in
  (truthy (EmailService.user account) = false →
     email_test_route smtp stamp defaultAccount accountConfig
     = Email500 "Recipient email address (to) is required")
  ∧ (∀ messageId,
       email_test_route smtp stamp defaultAccount accountConfig = EmailTest200 messageId →
       ∃ u transporter mailOptions response,
         EmailService.user account = Some u
         ∧ smtp transporter mailOptions = inr (messageId, response)
         ∧ EmailService.t_user transporter = u
         ∧ EmailService.m_from mailOptions = u
         ∧ EmailService.m_to mailOptions = u
         ∧ EmailService.m_subject mailOptions = "Test Email from WhatsApp-Email Messenger"
         ∧ EmailService.m_text mailOptions = Some ("This is a test email sent at " +:+ stamp)
         ∧ EmailService.m_html mailOptions = EmailService.m_text mailOptions
         ∧ EmailService.m_cc mailOptions = None ∧ EmailService.m_bcc mailOptions = None).
Proof.
  cbn zeta. unfold email_test_route. split.
  - intros Hu. unfold EmailService.sendEmail. cbn [EmailService.to]. by rewrite Hu.
  - intros messageId.
    destruct (EmailService.sendEmail smtp _ _) as [id resp|e] eqn:Hsend; [|done].
    intros [= ->].
    apply sendEmail_sent_parts in Hsend
      as (recipient & subj & tr & Hto & Hsub & Htr & Hsmtp).
    cbn [EmailService.to EmailService.subject EmailService.text EmailService.html
         EmailService.cc EmailService.bcc EmailService.attachments] in *.
    injection Hsub as <-.
    apply createTransporter_inr in Htr as (h & p & u & pw & _ & _ & _ & _ & Hu & _ & _ & _ & ->).
    rewrite Hu in Hto. injection Hto as <-.
    eexists u, _, _, resp. split; [done|]. split; [exact Hsmtp|].
    cbn. repeat split; done.
Qed.

Lemma email_test_route_self_witness :
  let account := EmailService.mkAccount (Some "smtp.example.com") (Some 587) None
                   (Some "secret") in
  let accept : EmailService.Smtp := λ _ _, inr ("id", "250 OK") in
  email_test_route accept "2025-01-01T00:00:00.000Z" account None
  = Email500 "Recipient email address (to) is required".
Proof.
  intros account accept.
  apply (email_test_route_self accept "2025-01-01T00:00:00.000Z" account None). reflexivity.
Defined.
